(** * Tic Tac Toe backend: board codec and snapshot persistence

    A shallow embedding of [backend/src/api/main.py]: the board codec
    ([_encode_board], [_decode_board]), the pydantic models [GameStateIn]
    and [GameStateOut], and the two handlers [save_game_state] and
    [get_latest_game_state] over the [ttt_games] table.

    Python exceptions are values of [exn]; a call either returns or raises
    ([result]).  The handlers run in a small state-and-exception monad over
    [World], which holds the SQLite table, its AUTOINCREMENT counter and the
    wall clock read by [_utc_now_iso].  Stored values keep the storage class
    SQLite gives them, so a row may hold text that is not UTF-8 or a number
    column that holds a real or a text; binding a parameter and reading a
    row raise what the [sqlite3] driver raises.  The allowed-origins setting read at
    start-up is embedded with the string operations it uses. *)

From Stdlib Require Import ZArith NArith List String Ascii Bool Lia Sorted.
From Stdlib Require Import SpecFloat.
Import ListNotations.

Open Scope string_scope.
Open Scope list_scope.
Open Scope Z_scope.

(** ** Python values *)

(** A Python [str] is a sequence of Unicode code points; [len] counts code
    points and iteration yields one-character strings. *)
Definition char := N.
Definition str := list char.

(** The [str] written by an ASCII literal of the source. *)
Definition py (s : string) : str := map N_of_ascii (list_ascii_of_string s).

(** [a == b] on two [str]. *)
Fixpoint str_eqb (a b : str) : bool :=
  match a, b with
  | [], [] => true
  | x :: a', y :: b' => N.eqb x y && str_eqb a' b'
  | _, _ => false
  end.

(** [len(x)] *)
Definition len {A} (l : list A) : Z := Z.of_nat (List.length l).

(** [for ch in s]: the one-character strings of [s], in order. *)
Definition iter_str (s : str) : list str := map (fun c => [c]) s.

(** ["".join(parts)] *)
Definition join (parts : list str) : str := List.concat parts.

(** [v in (t1, ..., tn)] for an [Optional[str]] value and a tuple of [str]:
    [None] equals no string. *)
Definition py_in (v : option str) (t : list str) : bool :=
  match v with
  | Some s => existsb (str_eqb s) t
  | None => false
  end.

(** ** Exceptions *)

Inductive exn : Type :=
| ValueError (msg : string)
| HTTPException (status_code : Z) (detail : string)
| ValidationError (loc : list string)
| OverflowError (msg : string)
| UnicodeEncodeError
| OperationalError (column : string).

Inductive result (A : Type) : Type :=
| Ok (a : A)
| Raise (e : exn).
Arguments Ok {A} a.
Arguments Raise {A} e.

(** [str(e)], the text interpolated by [f"...{e}"].  For a [ValueError]
    built from one message it is that message.  The program formats an
    exception in one place only, around [_decode_board], which raises
    nothing but [ValueError]; the other cases are never formatted.
    [OperationalError column] stands for the driver's "Could not decode to
    UTF-8 column ..." error on that column. *)
Definition exn_str (e : exn) : string :=
  match e with
  | ValueError msg => msg
  | HTTPException _ detail => detail
  | ValidationError _ => "validation error"
  | OverflowError msg => msg
  | UnicodeEncodeError => "surrogates not allowed"
  | OperationalError column => "Could not decode to UTF-8 column " ++ column
  end.

(** ** Board codec *)

(** One element of the comprehension [v if v in ("X", "O") else "."]. *)
Definition encode_cell (v : option str) : str :=
  if py_in v [py "X"; py "O"]
  then match v with Some s => s | None => py "." end
  else py ".".

Definition _encode_board (board : list (option str)) : result str :=
  if negb (len board =? 9) then Raise (ValueError "board must have length 9")
  else Ok (join (map encode_cell board)).

(** The [for ch in s] loop of [_decode_board], [out] being the list built
    so far. *)
Fixpoint decode_loop (chs : list str) (out : list (option str))
  : result (list (option str)) :=
  match chs with
  | [] => Ok out
  | ch :: rest =>
      if str_eqb ch (py ".") then decode_loop rest (out ++ [None])
      else if py_in (Some ch) [py "X"; py "O"]
           then decode_loop rest (out ++ [Some ch])
           else Raise (ValueError "invalid board encoding")
  end.

Definition _decode_board (s : str) : result (list (option str)) :=
  if negb (len s =? 9) then Raise (ValueError "board string must have length 9")
  else decode_loop (iter_str s) [].

(** *** Well-formed boards and board strings *)

(** A cell of type [Optional[Literal["X", "O"]]]. *)
Definition is_literal_XO (s : str) : bool :=
  str_eqb s (py "X") || str_eqb s (py "O").

Definition cell_ok (v : option str) : bool :=
  match v with
  | None => true
  | Some s => is_literal_XO s
  end.

(** A valid board: nine cells, each null, ["X"] or ["O"]. *)
Definition valid_board (b : list (option str)) : bool :=
  (len b =? 9) && forallb cell_ok b.

(** A character of the storage alphabet ['.'], ['X'], ['O']. *)
Definition board_char (c : char) : bool :=
  N.eqb c 46 || N.eqb c 88 || N.eqb c 79.

(** A well-formed storage string: nine characters of the alphabet. *)
Definition board_string_ok (s : str) : bool :=
  (len s =? 9) && forallb board_char s.

(** The character the codec writes for a cell. *)
Definition cell_char (v : option str) : char :=
  match v with
  | Some s => if str_eqb s (py "X") then 88%N
              else if str_eqb s (py "O") then 79%N else 46%N
  | None => 46%N
  end.

(** The cell a storage character decodes to. *)
Definition char_cell (c : char) : option str :=
  if N.eqb c 46 then None else Some [c].

(** Sequencing of fallible calls: the second runs on the value returned by
    the first, an exception of the first propagates. *)
Definition and_then {A B} (r : result A) (k : A -> result B) : result B :=
  match r with
  | Ok a => k a
  | Raise e => Raise e
  end.

(** ** pydantic models *)

(** [GameStateIn]: the request body of [POST /api/games]. *)
Module GameStateIn.
Record t : Type := {
  board : list (option str);
  next_player : str;
  winner : option str;
  is_draw : bool;
  moves : Z
}.
End GameStateIn.

(** [GameStateOut]: a persisted snapshot as returned to the client. *)
Module GameStateOut.
Record t : Type := {
  id : Z;
  board : list (option str);
  next_player : str;
  winner : option str;
  is_draw : bool;
  moves : Z;
  created_at : str;
  updated_at : str
}.
End GameStateOut.

(** The error location a field contributes when its constraint fails. *)
Definition check (ok : bool) (field : string) : list string :=
  if ok then [] else [field].

(** [moves: int = Field(0, ge=0, le=9)] *)
Definition moves_in_range (m : Z) : bool := (0 <=? m) && (m <=? 9).

(** Field constraints of [GameStateIn], in declaration order; the list of
    fields that fail.  The board is a list of any length. *)
Definition GameStateIn_errors (p : GameStateIn.t) : list string :=
  check (forallb cell_ok (GameStateIn.board p)) "board" ++
  check (is_literal_XO (GameStateIn.next_player p)) "next_player" ++
  check (cell_ok (GameStateIn.winner p)) "winner" ++
  check (moves_in_range (GameStateIn.moves p)) "moves".

(** Field constraints of [GameStateOut]. *)
Definition GameStateOut_errors (o : GameStateOut.t) : list string :=
  check (forallb cell_ok (GameStateOut.board o)) "board" ++
  check (is_literal_XO (GameStateOut.next_player o)) "next_player" ++
  check (cell_ok (GameStateOut.winner o)) "winner" ++
  check (moves_in_range (GameStateOut.moves o)) "moves".

(** [GameStateOut(id=..., board=..., ...)]: the constructor validates its
    fields and raises when one fails. *)
Definition GameStateOut_new (o : GameStateOut.t) : result GameStateOut.t :=
  match GameStateOut_errors o with
  | [] => Ok o
  | loc => Raise (ValidationError loc)
  end.

(** A valid save payload: every field constraint holds and the board has
    nine cells. *)
Definition valid_payload (p : GameStateIn.t) : bool :=
  (len (GameStateIn.board p) =? 9) &&
  match GameStateIn_errors p with [] => true | _ => false end.

(** ** Stored values and Python values *)

(** Truth value of a [str]: false for the empty string only. *)
Definition truthy (s : str) : bool :=
  match s with
  | [] => false
  | _ :: _ => true
  end.

(** A stored TEXT value as the driver reads it: the [str] its bytes decode
    to, or bytes that are not UTF-8. *)
Inductive text : Type :=
| Utf8 (s : str)
| NotUtf8.

(** A value in a column declared INTEGER: SQLite keeps an integer, a real
    or a text there, whichever was written. *)
Inductive numeric : Type :=
| Integer (z : Z)
| Real (f : spec_float)
| Text (t : text).

(** What Python holds after reading such a column. *)
Inductive pynum : Type :=
| PyInt (z : Z)
| PyFloat (f : spec_float)
| PyStr (s : str).

(** [bool(v)] *)
Definition py_bool (v : pynum) : bool :=
  match v with
  | PyInt z => negb (z =? 0)
  | PyFloat (S754_zero _) => false
  | PyFloat _ => true
  | PyStr s => truthy s
  end.

(** [int(f)] on a float: truncation towards zero. *)
Definition int_of_float (f : spec_float) : result Z :=
  match f with
  | S754_zero _ => Ok 0
  | S754_finite s m e =>
      let a := Z.shiftl (Z.pos m) e in Ok (if s then - a else a)
  | S754_infinity _ =>
      Raise (OverflowError "cannot convert float infinity to integer")
  | S754_nan => Raise (ValueError "cannot convert float NaN to integer")
  end.

(** [int(v)].  On a [str] the result is the interpreter's: [int_of_str s]
    is the integer [int(s)] returns, or the message of the [ValueError] it
    raises; its grammar (sign, underscores, the digits of every script,
    the digit limit) is a parameter of the model. *)
Definition py_int (int_of_str : str -> Z + string) (v : pynum) : result Z :=
  match v with
  | PyInt z => Ok z
  | PyFloat f => int_of_float f
  | PyStr s =>
      match int_of_str s with
      | inl z => Ok z
      | inr msg => Raise (ValueError msg)
      end
  end.

(** ** The store *)

(** A row of [ttt_games], each column with the value stored in it: text
    columns hold a TEXT, number columns an integer, a real or a text;
    [winner] may be NULL.  (BLOB values are not modelled.) *)
Module Row.
Record t : Type := {
  id : Z;
  board : text;
  next_player : text;
  winner : option text;
  is_draw : numeric;
  moves : numeric;
  created_at : text;
  updated_at : text
}.
End Row.

(** A row as [fetchone] hands it to Python. *)
Module PyRow.
Record t : Type := {
  id : Z;
  board : str;
  next_player : str;
  winner : option str;
  is_draw : pynum;
  moves : pynum;
  created_at : str;
  updated_at : str
}.
End PyRow.

(** What the handlers act on: the rows of [ttt_games] in insertion order,
    the AUTOINCREMENT counter SQLite keeps for the table (the largest id
    ever assigned), and the clock: [clock n] is the [n]-th reading of
    [_utc_now_iso], an ASCII string, [ticks] the number of readings taken
    so far.  The table exists ([_init_db] runs when the module is loaded);
    opening and closing a connection leaves the store as it is; ids are
    unbounded integers, and faults of the engine (I/O errors, a full disk,
    the 63-bit id space running out) are outside the model. *)
Record World : Type := {
  ttt_games : list Row.t;
  sqlite_sequence : Z;
  clock : nat -> string;
  ticks : nat
}.

(** The store right after [_init_db] created the table. *)
Definition empty_store (clk : nat -> string) : World :=
  {| ttt_games := []; sqlite_sequence := 0; clock := clk; ticks := 0%nat |}.

(** A handler either returns or raises, and leaves a world behind. *)
Definition M (A : Type) : Type := World -> result A * World.

Definition ret {A} (a : A) : M A := fun w => (Ok a, w).

Definition raise {A} (e : exn) : M A := fun w => (Raise e, w).

Definition bind {A B} (c : M A) (k : A -> M B) : M B :=
  fun w =>
    match c w with
    | (Ok a, w') => k a w'
    | (Raise e, w') => (Raise e, w')
    end.

(** A call of a pure, fallible function. *)
Definition call {A} (r : result A) : M A := fun w => (r, w).

(** [try: body  except Exception as e: handler e] *)
Definition try_except {A} (body : M A) (handler : exn -> M A) : M A :=
  fun w =>
    match body w with
    | (Ok a, w') => (Ok a, w')
    | (Raise e, w') => handler e w'
    end.

Notation "x <- c ;; k" := (bind c (fun x => k))
  (at level 61, c at next level, right associativity).

Definition _utc_now_iso : M str :=
  fun w =>
    (Ok (py (clock w (ticks w))),
     {| ttt_games := ttt_games w; sqlite_sequence := sqlite_sequence w;
        clock := clock w; ticks := S (ticks w) |}).

(** The largest id in the table, 0 when it is empty. *)
Definition max_id (t : list Row.t) : Z :=
  fold_right (fun r m => Z.max (Row.id r) m) 0 t.

(** The id AUTOINCREMENT gives the next row: one more than the largest id
    the table holds or has ever held. *)
Definition next_id (w : World) : Z :=
  Z.max (sqlite_sequence w) (max_id (ttt_games w)) + 1.

(** A lone surrogate, the one kind of character UTF-8 cannot encode. *)
Definition is_surrogate (c : char) : bool :=
  ((55296 <=? c) && (c <=? 57343))%N.

(** Binding a [str] parameter: it is encoded as UTF-8. *)
Definition bind_str (s : str) : result text :=
  if existsb is_surrogate s then Raise UnicodeEncodeError else Ok (Utf8 s).

(** Binding an optional [str]: [None] is bound as NULL. *)
Definition bind_optional_str (v : option str) : result (option text) :=
  match v with
  | None => Ok None
  | Some s => and_then (bind_str s) (fun t => Ok (Some t))
  end.

(** An integer SQLite can hold: 64 bits, signed. *)
Definition fits_int64 (z : Z) : bool :=
  (- 9223372036854775808 <=? z) && (z <=? 9223372036854775807).

(** Binding an [int] parameter. *)
Definition bind_int (z : Z) : result numeric :=
  if fits_int64 z then Ok (Integer z)
  else Raise (OverflowError "Python int too large to convert to SQLite INTEGER").

(** The parameters of the INSERT, bound in order; the first that cannot be
    bound raises. *)
Definition bind_parameters (rowid : Z) (board next_player : str)
    (winner : option str) (is_draw moves : Z) (created_at updated_at : str)
  : result Row.t :=
  and_then (bind_str board) (fun c_board =>
  and_then (bind_str next_player) (fun c_next_player =>
  and_then (bind_optional_str winner) (fun c_winner =>
  and_then (bind_int is_draw) (fun c_is_draw =>
  and_then (bind_int moves) (fun c_moves =>
  and_then (bind_str created_at) (fun c_created_at =>
  and_then (bind_str updated_at) (fun c_updated_at =>
    Ok {| Row.id := rowid; Row.board := c_board;
          Row.next_player := c_next_player; Row.winner := c_winner;
          Row.is_draw := c_is_draw; Row.moves := c_moves;
          Row.created_at := c_created_at;
          Row.updated_at := c_updated_at |}))))))).

(** [INSERT INTO ttt_games (board, ..., updated_at) VALUES (?, ..., ?)]
    followed by [commit]; returns [cur.lastrowid].  With
    [INTEGER PRIMARY KEY AUTOINCREMENT] the new id is [next_id].  When a
    parameter cannot be bound [execute] raises and nothing is written. *)
Definition insert_ttt_games (board next_player : str) (winner : option str)
    (is_draw moves : Z) (created_at updated_at : str) : M Z :=
  fun w =>
    let rowid := next_id w in
    match bind_parameters rowid board next_player winner is_draw moves
                          created_at updated_at with
    | Raise e => (Raise e, w)
    | Ok row =>
        (Ok rowid,
         {| ttt_games := ttt_games w ++ [row];
            sqlite_sequence := rowid;
            clock := clock w; ticks := ticks w |})
    end.

(** The row [ORDER BY id DESC LIMIT 1] keeps. *)
Fixpoint order_by_id_desc_limit_1 (t : list Row.t) : option Row.t :=
  match t with
  | [] => None
  | r :: rest =>
      match order_by_id_desc_limit_1 rest with
      | Some r' => if Row.id r <? Row.id r' then Some r' else Some r
      | None => Some r
      end
  end.

(** Reading a TEXT value of a column: the driver decodes it as UTF-8 and
    raises when it cannot. *)
Definition read_text (column : string) (t : text) : result str :=
  match t with
  | Utf8 s => Ok s
  | NotUtf8 => Raise (OperationalError column)
  end.

Definition read_optional_text (column : string) (v : option text)
  : result (option str) :=
  match v with
  | None => Ok None
  | Some t => and_then (read_text column t) (fun s => Ok (Some s))
  end.

Definition read_numeric (column : string) (v : numeric) : result pynum :=
  match v with
  | Integer z => Ok (PyInt z)
  | Real f => Ok (PyFloat f)
  | Text t => and_then (read_text column t) (fun s => Ok (PyStr s))
  end.

(** The columns of a row turned into Python values, in column order. *)
Definition read_row (r : Row.t) : result PyRow.t :=
  and_then (read_text "board" (Row.board r)) (fun v_board =>
  and_then (read_text "next_player" (Row.next_player r)) (fun v_next_player =>
  and_then (read_optional_text "winner" (Row.winner r)) (fun v_winner =>
  and_then (read_numeric "is_draw" (Row.is_draw r)) (fun v_is_draw =>
  and_then (read_numeric "moves" (Row.moves r)) (fun v_moves =>
  and_then (read_text "created_at" (Row.created_at r)) (fun v_created_at =>
  and_then (read_text "updated_at" (Row.updated_at r)) (fun v_updated_at =>
    Ok {| PyRow.id := Row.id r; PyRow.board := v_board;
          PyRow.next_player := v_next_player; PyRow.winner := v_winner;
          PyRow.is_draw := v_is_draw; PyRow.moves := v_moves;
          PyRow.created_at := v_created_at;
          PyRow.updated_at := v_updated_at |}))))))).

(** [cur.fetchone()] after the query: [None] on an empty table, else the
    latest row as Python values. *)
Definition fetchone (t : list Row.t) : result (option PyRow.t) :=
  match order_by_id_desc_limit_1 t with
  | None => Ok None
  | Some r => and_then (read_row r) (fun row => Ok (Some row))
  end.

(** [SELECT * FROM ttt_games ORDER BY id DESC LIMIT 1] and [fetchone()]. *)
Definition select_latest : M (option PyRow.t) :=
  fun w => (fetchone (ttt_games w), w).

(** ** Handlers *)

Definition save_game_state (payload : GameStateIn.t) : M GameStateOut.t :=
  if negb (len (GameStateIn.board payload) =? 9)
  then raise (HTTPException 400 "board must be a 9-element array")
  else
    now <- _utc_now_iso ;;
    board_encoded <- call (_encode_board (GameStateIn.board payload)) ;;
    game_id <- insert_ttt_games
                 board_encoded
                 (GameStateIn.next_player payload)
                 (GameStateIn.winner payload)
                 (if GameStateIn.is_draw payload then 1 else 0)
                 (GameStateIn.moves payload)
                 now
                 now ;;
    board <- call (_decode_board board_encoded) ;;
    call (GameStateOut_new
            {| GameStateOut.id := game_id;
               GameStateOut.board := board;
               GameStateOut.next_player := GameStateIn.next_player payload;
               GameStateOut.winner := GameStateIn.winner payload;
               GameStateOut.is_draw := GameStateIn.is_draw payload;
               GameStateOut.moves := GameStateIn.moves payload;
               GameStateOut.created_at := now;
               GameStateOut.updated_at := now |}).

Definition get_latest_game_state (int_of_str : str -> Z + string)
  : M GameStateOut.t :=
  row <- select_latest ;;
  match row with
  | None => raise (HTTPException 404 "No saved game state")
  | Some row =>
      board <- try_except
                 (call (_decode_board (PyRow.board row)))
                 (fun e => raise (HTTPException 500
                                    ("Corrupt board data: " ++ exn_str e)%string)) ;;
      moves <- call (py_int int_of_str (PyRow.moves row)) ;;
      call (GameStateOut_new
              {| GameStateOut.id := PyRow.id row;
                 GameStateOut.board := board;
                 GameStateOut.next_player := PyRow.next_player row;
                 GameStateOut.winner := PyRow.winner row;
                 GameStateOut.is_draw := py_bool (PyRow.is_draw row);
                 GameStateOut.moves := moves;
                 GameStateOut.created_at := PyRow.created_at row;
                 GameStateOut.updated_at := PyRow.updated_at row |})
  end.

(** [POST /api/games]: the body is validated against [GameStateIn] first;
    the handler runs only on a body that passes. *)
Definition POST_api_games (body : GameStateIn.t) : M GameStateOut.t :=
  match GameStateIn_errors body with
  | [] => save_game_state body
  | loc => raise (ValidationError loc)
  end.

(** ** Sequences of calls *)

(** The store after saving each payload in turn. *)
Fixpoint save_all (ps : list GameStateIn.t) (w : World) : World :=
  match ps with
  | [] => w
  | p :: ps' => save_all ps' (snd (save_game_state p w))
  end.

(** One save followed by one fetch: what each returned and the table in
    between. *)
Record Step : Type := {
  saved : result GameStateOut.t;
  latest : result GameStateOut.t;
  table : list Row.t
}.

(** Saving each payload in turn, fetching the latest after each save. *)
Fixpoint save_and_fetch_each (int_of_str : str -> Z + string)
    (ps : list GameStateIn.t) (w : World) : list Step :=
  match ps with
  | [] => []
  | p :: ps' =>
      let (s, w1) := save_game_state p w in
      let (l, w2) := get_latest_game_state int_of_str w1 in
      {| saved := s; latest := l; table := ttt_games w1 |}
        :: save_and_fetch_each int_of_str ps' w2
  end.

(** The row [save_game_state] writes for a payload at time [now]. *)
Definition row_of (rowid : Z) (encoded : str) (p : GameStateIn.t) (now : str)
  : Row.t :=
  {| Row.id := rowid; Row.board := Utf8 encoded;
     Row.next_player := Utf8 (GameStateIn.next_player p);
     Row.winner := option_map Utf8 (GameStateIn.winner p);
     Row.is_draw := Integer (if GameStateIn.is_draw p then 1 else 0);
     Row.moves := Integer (GameStateIn.moves p);
     Row.created_at := Utf8 now; Row.updated_at := Utf8 now |}.

(** What the driver reads back from that row. *)
Definition pyrow_of (rowid : Z) (encoded : str) (p : GameStateIn.t) (now : str)
  : PyRow.t :=
  {| PyRow.id := rowid; PyRow.board := encoded;
     PyRow.next_player := GameStateIn.next_player p;
     PyRow.winner := GameStateIn.winner p;
     PyRow.is_draw := PyInt (if GameStateIn.is_draw p then 1 else 0);
     PyRow.moves := PyInt (GameStateIn.moves p);
     PyRow.created_at := now; PyRow.updated_at := now |}.

(** The record a payload saved under [rowid] at time [now] reads as. *)
Definition record_of (rowid : Z) (p : GameStateIn.t) (now : str)
  : GameStateOut.t :=
  {| GameStateOut.id := rowid;
     GameStateOut.board := GameStateIn.board p;
     GameStateOut.next_player := GameStateIn.next_player p;
     GameStateOut.winner := GameStateIn.winner p;
     GameStateOut.is_draw := GameStateIn.is_draw p;
     GameStateOut.moves := GameStateIn.moves p;
     GameStateOut.created_at := now; GameStateOut.updated_at := now |}.

(** The world a successful save leaves: one clock reading taken, one row
    appended under the next id. *)
Definition world_after_save (p : GameStateIn.t) (encoded : str) (w : World)
  : World :=
  {| ttt_games := ttt_games w ++
       [row_of (next_id w) encoded p (py (clock w (ticks w)))];
     sqlite_sequence := next_id w;
     clock := clock w; ticks := S (ticks w) |}.

(** A stored board that reads as a well-formed board string. *)
Definition board_text_ok (t : text) : bool :=
  match t with
  | Utf8 s => board_string_ok s
  | NotUtf8 => false
  end.

(** The world after one reading of the clock and nothing else. *)
Definition after_clock_read (w : World) : World :=
  {| ttt_games := ttt_games w; sqlite_sequence := sqlite_sequence w;
     clock := clock w; ticks := S (ticks w) |}.

(** The invariant of a store written only by [save_game_state]. *)
Definition boards_ok (w : World) : Prop :=
  Forall (fun r => board_text_ok (Row.board r) = true) (ttt_games w).

(** A payload and a store used in the examples: the board
    [["X", null, null, null, "O", null, null, null, null]] with "O" to
    play after two moves, and a clock whose [n]-th reading ends in the
    digit [n]. *)
Definition example_payload : GameStateIn.t :=
  {| GameStateIn.board := [Some (py "X"); None; None; None; Some (py "O");
                           None; None; None; None];
     GameStateIn.next_player := py "O";
     GameStateIn.winner := None;
     GameStateIn.is_draw := false;
     GameStateIn.moves := 2 |}.

Definition example_clock (n : nat) : string :=
  ("2024-05-01T12:00:0" ++ String (ascii_of_nat (48 + n)) "+00:00")%string.

(** A store holding the given rows, for the examples. *)
Definition store_with (rows : list Row.t) : World :=
  {| ttt_games := rows; sqlite_sequence := max_id rows;
     clock := example_clock; ticks := 0%nat |}.

(** In the examples [int] is never asked to read a [str]; this parser
    turns every string down. *)
Definition no_int (s : str) : Z + string :=
  inr "invalid literal for int() with base 10".

(** ** Configuration read at start-up *)

(** [os.environ]: the value of each variable that is set. *)
Definition Environ : Type := string -> option str.

(** [os.getenv(name, default)] *)
Definition getenv (environ : Environ) (name : string) (default : str) : str :=
  match environ name with
  | Some v => v
  | None => default
  end.

(** The characters [str.strip()] removes: Unicode whitespace. *)
Definition isspace (c : char) : bool :=
  ((9 <=? c) && (c <=? 13) || (28 <=? c) && (c <=? 32) ||
   (c =? 133) || (c =? 160) || (c =? 5760) ||
   (8192 <=? c) && (c <=? 8202) ||
   (c =? 8232) || (c =? 8233) || (c =? 8239) || (c =? 8287) ||
   (c =? 12288))%N.

(** [s.lstrip()] *)
Fixpoint lstrip (s : str) : str :=
  match s with
  | [] => []
  | c :: s' => if isspace c then lstrip s' else s
  end.

(** [s.rstrip()] *)
Definition rstrip (s : str) : str := rev (lstrip (rev s)).

(** [s.strip()] *)
Definition strip (s : str) : str := rstrip (lstrip s).

(** [s.split(sep)] for a one-character separator: the pieces between the
    separators, empty pieces included; never the empty list. *)
Fixpoint str_split (sep : char) (s : str) : list str :=
  match s with
  | [] => [[]]
  | c :: s' =>
      if N.eqb c sep then [] :: str_split sep s'
      else match str_split sep s' with
           | piece :: pieces => (c :: piece) :: pieces
           | [] => [[c]]
           end
  end.

(** [sep.join(parts)] *)
Fixpoint str_join (sep : str) (parts : list str) : str :=
  match parts with
  | [] => []
  | [p] => p
  | p :: rest => p ++ sep ++ str_join sep rest
  end.

(** The comma, [","]. *)
Definition comma : char := 44%N.

(** [allowed_origins_raw = os.getenv("ALLOWED_ORIGINS", "*")] *)
Definition allowed_origins_raw (environ : Environ) : str :=
  getenv environ "ALLOWED_ORIGINS" (py "*").

(** [allowed_origins]: the wildcard alone, or the comma-separated entries
    of the raw value, stripped, blank entries left out. *)
Definition allowed_origins (raw : str) : list str :=
  if str_eqb (strip raw) (py "*") then [py "*"]
  else map strip (filter (fun o => truthy (strip o)) (str_split comma raw)).

(** A string made of whitespace only. *)
Definition blank (s : str) : bool := forallb isspace s.

(** An entry that is not empty and neither starts nor ends with
    whitespace. *)
Definition tidy (o : str) : Prop :=
  o <> [] /\
  (forall c t, o = c :: t -> isspace c = false) /\
  (forall c t, rev o = c :: t -> isspace c = false).

(** The pieces [ps] with [b] appended to the last one. *)
Fixpoint app_last (b : str) (ps : list str) : list str :=
  match ps with
  | [] => []
  | [p] => [p ++ b]
  | p :: ps' => p :: app_last b ps'
  end.

(** A payload whose board has nine cells, the one condition
    [save_game_state] checks itself. *)
Definition nine_cells (p : GameStateIn.t) : bool :=
  len (GameStateIn.board p) =? 9.

(** The fields of a payload other than the board, as [GameStateOut]
    constrains them. *)
Definition outcome_fields_ok (p : GameStateIn.t) : bool :=
  is_literal_XO (GameStateIn.next_player p) &&
  cell_ok (GameStateIn.winner p) &&
  moves_in_range (GameStateIn.moves p).

(** The same for a row read from the store, [m] being what [int] made
    of its [moves]. *)
Definition row_fields_ok (row : PyRow.t) (m : Z) : bool :=
  is_literal_XO (PyRow.next_player row) &&
  cell_ok (PyRow.winner row) &&
  moves_in_range m.

(** A payload every field of which the driver can bind: no lone surrogate
    in [next_player] or [winner], [moves] within 64 bits. *)
Definition bindable (p : GameStateIn.t) : bool :=
  negb (existsb is_surrogate (GameStateIn.next_player p)) &&
  match GameStateIn.winner p with
  | Some s => negb (existsb is_surrogate s)
  | None => true
  end &&
  fits_int64 (GameStateIn.moves p).

(** A row holding the largest id of a table, above every other row. *)
Definition is_latest (r : Row.t) (t : list Row.t) : Prop :=
  In r t /\ forall r', In r' t -> r' = r \/ Row.id r' < Row.id r.

(** A payload whose save writes a row: nine cells, every field bindable. *)
Definition writes_row (p : GameStateIn.t) : bool :=
  nine_cells p && bindable p.

(** The state of a store filled from the empty table: the ids are 1..n
    and the counter stands at n. *)
Definition dense_ids (n : nat) (w : World) : Prop :=
  map Row.id (ttt_games w) = map Z.of_nat (seq 1 n) /\
  sqlite_sequence w = Z.of_nat n /\
  max_id (ttt_games w) <= Z.of_nat n.

(** ** Codec lemmas *)

Lemma str_eqb_eq (a b : str) : str_eqb a b = true <-> a = b.
Proof.
  revert b; induction a as [|x a IH]; intros [|y b]; simpl;
    try (split; [discriminate | discriminate]); try tauto.
  rewrite andb_true_iff, N.eqb_eq, IH.
  split; [intros [-> ->]; reflexivity | intros E; inversion E; auto].
Qed.

Lemma str_eqb_refl (a : str) : str_eqb a a = true.
Proof. apply str_eqb_eq; reflexivity. Qed.

Lemma len_eqb_9 {A} (l : list A) : (len l =? 9) = true <-> List.length l = 9%nat.
Proof. unfold len; rewrite Z.eqb_eq; lia. Qed.

Lemma encode_cell_char (v : option str) : encode_cell v = [cell_char v].
Proof.
  destruct v as [s|]; [|reflexivity].
  unfold encode_cell, cell_char, py_in; simpl existsb.
  destruct (str_eqb s (py "X")) eqn:EX.
  - apply str_eqb_eq in EX; subst; reflexivity.
  - destruct (str_eqb s (py "O")) eqn:EO; simpl.
    + apply str_eqb_eq in EO; subst; reflexivity.
    + reflexivity.
Qed.

Lemma join_singletons {A} (f : A -> char) (l : list A) :
  List.concat (map (fun x => [f x]) l) = map f l.
Proof. induction l; simpl; congruence. Qed.

Lemma encode_cells (b : list (option str)) :
  join (map encode_cell b) = map cell_char b.
Proof.
  unfold join. rewrite <- (join_singletons cell_char b).
  f_equal. apply map_ext. exact encode_cell_char.
Qed.

Lemma cell_char_board_char (v : option str) : board_char (cell_char v) = true.
Proof.
  destruct v as [s|]; simpl; [|reflexivity].
  destruct (str_eqb s (py "X")); [reflexivity|].
  destruct (str_eqb s (py "O")); reflexivity.
Qed.

Lemma ch_is_dot (c : char) : str_eqb [c] (py ".") = N.eqb c 46.
Proof. simpl. apply andb_true_r. Qed.

Lemma ch_in_XO (c : char) :
  py_in (Some [c]) [py "X"; py "O"] = N.eqb c 88 || N.eqb c 79.
Proof.
  unfold py_in, existsb, py; simpl.
  rewrite !andb_true_r, orb_false_r. reflexivity.
Qed.

Lemma decode_loop_step (c : char) (s : str) (out : list (option str)) :
  decode_loop (iter_str (c :: s)) out =
  if N.eqb c 46 then decode_loop (iter_str s) (out ++ [None])
  else if N.eqb c 88 || N.eqb c 79
       then decode_loop (iter_str s) (out ++ [Some [c]])
       else Raise (ValueError "invalid board encoding").
Proof.
  change (iter_str (c :: s)) with ([c] :: iter_str s).
  cbn [decode_loop]. rewrite ch_is_dot, ch_in_XO. reflexivity.
Qed.

Lemma decode_loop_ok (s : str) (out : list (option str)) :
  forallb board_char s = true ->
  decode_loop (iter_str s) out = Ok (out ++ map char_cell s).
Proof.
  revert out; induction s as [|c s IH]; intros out H.
  - simpl. rewrite app_nil_r; reflexivity.
  - cbn [forallb] in H. apply andb_true_iff in H as [Hc Hs].
    rewrite decode_loop_step. cbn [map]. unfold char_cell at 1.
    unfold board_char in Hc.
    destruct (N.eqb c 46) eqn:E46.
    + rewrite IH by assumption. rewrite <- app_assoc; reflexivity.
    + cbn [orb] in Hc. rewrite Hc.
      rewrite IH by assumption. rewrite <- app_assoc; reflexivity.
Qed.

Lemma decode_loop_bad (s : str) (out : list (option str)) :
  forallb board_char s = false ->
  decode_loop (iter_str s) out = Raise (ValueError "invalid board encoding").
Proof.
  revert out; induction s as [|c s IH]; intros out H.
  - discriminate.
  - cbn [forallb] in H. rewrite decode_loop_step.
    unfold board_char in H at 1.
    destruct (N.eqb c 46) eqn:E46; cbn [orb andb] in H; [apply IH; exact H|].
    destruct (N.eqb c 88 || N.eqb c 79) eqn:E; cbn [andb] in H;
      [apply IH; exact H|reflexivity].
Qed.

Lemma ch_is_X (c : char) : str_eqb [c] (py "X") = N.eqb c 88.
Proof. simpl. apply andb_true_r. Qed.

Lemma ch_is_O (c : char) : str_eqb [c] (py "O") = N.eqb c 79.
Proof. simpl. apply andb_true_r. Qed.

Lemma char_cell_char (c : char) :
  board_char c = true -> cell_char (char_cell c) = c.
Proof.
  unfold board_char, char_cell. intros H.
  destruct (N.eqb c 46) eqn:E46.
  - apply N.eqb_eq in E46; auto.
  - cbn [orb] in H. unfold cell_char. rewrite ch_is_X, ch_is_O.
    destruct (N.eqb c 88) eqn:E88.
    + apply N.eqb_eq in E88; auto.
    + cbn [orb] in H. rewrite H. apply N.eqb_eq in H; auto.
Qed.

Lemma cell_char_cell (v : option str) :
  cell_ok v = true -> char_cell (cell_char v) = v.
Proof.
  destruct v as [s|]; simpl; [|reflexivity].
  unfold is_literal_XO. intros H.
  destruct (str_eqb s (py "X")) eqn:EX.
  - apply str_eqb_eq in EX; subst; reflexivity.
  - simpl in H. rewrite H. apply str_eqb_eq in H; subst; reflexivity.
Qed.

Lemma encode_ok (b : list (option str)) :
  List.length b = 9%nat -> _encode_board b = Ok (map cell_char b).
Proof.
  intros L. unfold _encode_board.
  apply len_eqb_9 in L. rewrite L. simpl. rewrite encode_cells. reflexivity.
Qed.

Lemma encoded_ok (b : list (option str)) :
  List.length b = 9%nat -> board_string_ok (map cell_char b) = true.
Proof.
  intros L. unfold board_string_ok. apply andb_true_iff; split.
  - apply len_eqb_9. rewrite length_map; exact L.
  - rewrite forallb_forall. intros c Hc. apply in_map_iff in Hc as [v [<- _]].
    apply cell_char_board_char.
Qed.

Lemma decode_ok (s : str) :
  board_string_ok s = true -> _decode_board s = Ok (map char_cell s).
Proof.
  unfold board_string_ok, _decode_board. intros H.
  apply andb_true_iff in H as [L A]. rewrite L. simpl.
  rewrite decode_loop_ok; auto.
Qed.

Lemma decode_bad (s : str) :
  board_string_ok s = false -> exists msg, _decode_board s = Raise (ValueError msg).
Proof.
  unfold board_string_ok, _decode_board. intros H.
  destruct (len s =? 9) eqn:L; simpl in *.
  - rewrite decode_loop_bad by assumption. eauto.
  - eauto.
Qed.

Lemma decode_encode_cells (b : list (option str)) :
  forallb cell_ok b = true -> map char_cell (map cell_char b) = b.
Proof.
  induction b as [|v b IH]; simpl; [reflexivity|].
  intros H. apply andb_true_iff in H as [Hv Hb].
  rewrite cell_char_cell, IH; auto.
Qed.

Lemma encode_decode_chars (s : str) :
  forallb board_char s = true -> map cell_char (map char_cell s) = s.
Proof.
  induction s as [|c s IH]; simpl; [reflexivity|].
  intros H. apply andb_true_iff in H as [Hc Hs].
  rewrite char_cell_char, IH; auto.
Qed.

(** ** Codec theorems *)

(** C1: round trip.  For every valid nine-cell board [b] (cells null, "X"
    or "O"), decoding the encoding of [b] returns [b]; for every
    nine-character string [s] over '.', 'X', 'O', encoding the decoding of
    [s] returns [s]. *)
Theorem codec_round_trip :
  (forall b, valid_board b = true ->
     and_then (_encode_board b) _decode_board = Ok b) /\
  (forall s, board_string_ok s = true ->
     and_then (_decode_board s) _encode_board = Ok s).
Proof.
  split.
  - intros b H. unfold valid_board in H.
    apply andb_true_iff in H as [L C]. apply len_eqb_9 in L.
    rewrite encode_ok by exact L. simpl.
    rewrite decode_ok by (apply encoded_ok; exact L).
    rewrite decode_encode_cells by exact C. reflexivity.
  - intros s H. rewrite decode_ok by exact H. simpl.
    unfold board_string_ok in H. apply andb_true_iff in H as [L C].
    apply len_eqb_9 in L.
    rewrite encode_ok by (rewrite length_map; exact L).
    rewrite encode_decode_chars by exact C. reflexivity.
Qed.

Lemma codec_round_trip_witness :
  valid_board [Some (py "X"); None; None; None; Some (py "O");
               None; None; None; None] = true /\
  and_then (_encode_board [Some (py "X"); None; None; None; Some (py "O");
                           None; None; None; None]) _decode_board
  = Ok [Some (py "X"); None; None; None; Some (py "O");
        None; None; None; None] /\
  board_string_ok (py "XO..X.O.X") = true /\
  and_then (_decode_board (py "XO..X.O.X")) _encode_board
  = Ok (py "XO..X.O.X").
Proof.
  split; [reflexivity|].
  split; [apply (proj1 codec_round_trip); reflexivity|].
  split; [reflexivity|].
  apply (proj2 codec_round_trip); reflexivity.
Defined.

(** C7: rejection.  [_encode_board] raises on every list whose length is
    not 9; [_decode_board] raises on every string whose length is not 9 and
    on every nine-character string holding a character other than '.'
    (46), 'X' (88), 'O' (79).  A call that raises returns no value. *)
Theorem codec_rejects :
  (forall b : list (option str), List.length b <> 9%nat ->
     _encode_board b = Raise (ValueError "board must have length 9") /\
     forall s, _encode_board b <> Ok s) /\
  (forall s : str, List.length s <> 9%nat ->
     _decode_board s = Raise (ValueError "board string must have length 9") /\
     forall b, _decode_board s <> Ok b) /\
  (forall s : str, List.length s = 9%nat ->
     (exists c, In c s /\ c <> 46%N /\ c <> 88%N /\ c <> 79%N) ->
     _decode_board s = Raise (ValueError "invalid board encoding") /\
     forall b, _decode_board s <> Ok b).
Proof.
  assert (Hlen : forall A (l : list A), List.length l <> 9%nat ->
                                        (len l =? 9) = false).
  { intros A l H. destruct (len l =? 9) eqn:E; [|reflexivity].
    apply len_eqb_9 in E. contradiction. }
  split; [|split].
  - intros b H. unfold _encode_board. rewrite (Hlen _ _ H). simpl.
    split; [reflexivity | discriminate].
  - intros s H. unfold _decode_board. rewrite (Hlen _ _ H). simpl.
    split; [reflexivity | discriminate].
  - intros s L [c [Hin [H46 [H88 H79]]]].
    assert (E : _decode_board s = Raise (ValueError "invalid board encoding")).
    { unfold _decode_board. apply len_eqb_9 in L. rewrite L. simpl.
      apply decode_loop_bad.
      destruct (forallb board_char s) eqn:F; [|reflexivity].
      rewrite forallb_forall in F. specialize (F c Hin).
      unfold board_char in F.
      apply N.eqb_neq in H46, H88, H79. rewrite H46, H88, H79 in F.
      discriminate. }
    rewrite E. split; [reflexivity | discriminate].
Qed.

Lemma codec_rejects_witness :
  (_encode_board [None; None; None; None; None; None; None; None]
   = Raise (ValueError "board must have length 9")) /\
  (_decode_board (py "X.O.X.O.X.") = Raise (ValueError "board string must have length 9")) /\
  (_decode_board (py "X.O.?.O.X") = Raise (ValueError "invalid board encoding")).
Proof.
  split; [|split].
  - apply (proj1 codec_rejects). simpl. lia.
  - apply (proj1 (proj2 codec_rejects)). simpl. lia.
  - apply (proj2 (proj2 codec_rejects)); [reflexivity|].
    exists 63%N. simpl. repeat split; try tauto; discriminate.
Defined.

(** C10: on a nine-element list [_encode_board] always returns, whatever
    the cells hold: the result has nine characters, cell "X" gives 'X'
    (88), cell "O" gives 'O' (79), and every other cell, null or any other
    string, gives '.' (46).  The length check is its only failure: it
    raises exactly when the length is not 9. *)
Theorem encode_normalises_cells :
  (forall b : list (option str), List.length b = 9%nat ->
     exists s, _encode_board b = Ok s /\ List.length s = 9%nat /\
       forall i v, nth_error b i = Some v ->
         (v = Some (py "X") -> nth_error s i = Some 88%N) /\
         (v = Some (py "O") -> nth_error s i = Some 79%N) /\
         (v <> Some (py "X") -> v <> Some (py "O") ->
          nth_error s i = Some 46%N)) /\
  (forall b : list (option str),
     (exists e, _encode_board b = Raise e) <-> List.length b <> 9%nat).
Proof.
  split.
  - intros b L. exists (map cell_char b).
    split; [apply encode_ok; exact L|].
    split; [rewrite length_map; exact L|].
    intros i v Hv. rewrite nth_error_map, Hv. simpl.
    split; [|split].
    + intros ->. reflexivity.
    + intros ->. reflexivity.
    + intros HX HO. destruct v as [s|]; [|reflexivity]. simpl.
      destruct (str_eqb s (py "X")) eqn:EX.
      { apply str_eqb_eq in EX. subst. contradiction. }
      destruct (str_eqb s (py "O")) eqn:EO.
      { apply str_eqb_eq in EO. subst. contradiction. }
      reflexivity.
  - intros b. unfold _encode_board. destruct (len b =? 9) eqn:E; simpl.
    + apply len_eqb_9 in E. split; [intros [e H]; discriminate | contradiction].
    + split; [|eauto]. intros _ L. apply len_eqb_9 in L. congruence.
Qed.

Lemma encode_normalises_cells_witness :
  exists s,
    _encode_board [Some (py "X"); Some (py "Z"); None; Some (py "XO");
                   Some (py "O"); Some (py "x"); Some []; None; Some (py ".")]
    = Ok s /\ List.length s = 9%nat /\ s = py "X...O....".
Proof.
  destruct (proj1 encode_normalises_cells
              [Some (py "X"); Some (py "Z"); None; Some (py "XO");
               Some (py "O"); Some (py "x"); Some []; None; Some (py ".")]
              eq_refl) as [s [E [L _]]].
  exists s. split; [exact E|]. split; [exact L|].
  vm_compute in E. injection E as <-. reflexivity.
Defined.

(** ** Store lemmas *)

Lemma check_nil (ok : bool) (f : string) : check ok f = [] <-> ok = true.
Proof. destruct ok; simpl; split; congruence. Qed.

Lemma errors_nil (a b c d : bool) (fa fb fc fd : string) :
  check a fa ++ check b fb ++ check c fc ++ check d fd = [] <->
  a = true /\ b = true /\ c = true /\ d = true.
Proof. destruct a, b, c, d; simpl; intuition congruence. Qed.

Lemma valid_payload_spec (p : GameStateIn.t) :
  valid_payload p = true <->
  List.length (GameStateIn.board p) = 9%nat /\ GameStateIn_errors p = [].
Proof.
  unfold valid_payload. rewrite andb_true_iff, len_eqb_9.
  destruct (GameStateIn_errors p); intuition congruence.
Qed.

Lemma max_id_ge (t : list Row.t) (r : Row.t) : In r t -> Row.id r <= max_id t.
Proof.
  induction t as [|x t IH]; simpl; [tauto|].
  intros [-> | H]; [lia | specialize (IH H); lia].
Qed.

Lemma next_id_fresh (w : World) (r : Row.t) :
  In r (ttt_games w) -> Row.id r < next_id w.
Proof. intros H. apply max_id_ge in H. unfold next_id. lia. Qed.

Lemma latest_in (t : list Row.t) (r : Row.t) :
  order_by_id_desc_limit_1 t = Some r -> In r t.
Proof.
  revert r; induction t as [|x t IH]; simpl; [discriminate|].
  intros r. destruct (order_by_id_desc_limit_1 t) as [r'|].
  - destruct (Row.id x <? Row.id r'); intros E; injection E as <-; auto.
  - intros E; injection E as <-; auto.
Qed.

Lemma latest_none (t : list Row.t) :
  order_by_id_desc_limit_1 t = None <-> t = [].
Proof.
  destruct t as [|x t]; simpl; [tauto|].
  destruct (order_by_id_desc_limit_1 t) as [r'|];
    [destruct (Row.id x <? Row.id r')|]; split; discriminate.
Qed.

(** The query returns the row whose id is above every other row's. *)
Lemma latest_is_max (t : list Row.t) (r : Row.t) :
  In r t ->
  (forall r', In r' t -> r' = r \/ Row.id r' < Row.id r) ->
  order_by_id_desc_limit_1 t = Some r.
Proof.
  induction t as [|x t IH]; simpl; [tauto|].
  intros Hin Hmax.
  assert (Hrest : forall r', In r' t -> r' = r \/ Row.id r' < Row.id r)
    by (intros r' H; apply Hmax; auto).
  destruct Hin as [-> | Hin].
  - destruct (order_by_id_desc_limit_1 t) as [r'|] eqn:E; [|reflexivity].
    apply latest_in in E. destruct (Hrest r' E) as [-> | Hlt].
    + rewrite Z.ltb_irrefl. reflexivity.
    + replace (Row.id r <? Row.id r') with false
        by (symmetry; apply Z.ltb_ge; lia).
      reflexivity.
  - rewrite (IH Hin Hrest).
    destruct (Hmax x (or_introl eq_refl)) as [-> | Hlt].
    + rewrite Z.ltb_irrefl. reflexivity.
    + apply Z.ltb_lt in Hlt. rewrite Hlt. reflexivity.
Qed.

Lemma latest_after_append (t : list Row.t) (r : Row.t) :
  (forall r', In r' t -> Row.id r' < Row.id r) ->
  order_by_id_desc_limit_1 (t ++ [r]) = Some r.
Proof.
  intros H. apply latest_is_max.
  - apply in_or_app; right; simpl; auto.
  - intros r' Hin. apply in_app_or in Hin as [Hin | [<- | []]]; auto.
Qed.

Lemma GameStateOut_new_ok (o : GameStateOut.t) :
  GameStateOut_errors o = [] -> GameStateOut_new o = Ok o.
Proof. unfold GameStateOut_new. intros ->. reflexivity. Qed.

(** ** Handler lemmas *)

Lemma py_no_surrogate (s : string) : existsb is_surrogate (py s) = false.
Proof.
  unfold py. induction s as [|a s IH]; [reflexivity|].
  cbn [list_ascii_of_string map existsb]. rewrite IH, orb_false_r.
  unfold is_surrogate. pose proof (N_ascii_bounded a) as B.
  apply andb_false_iff. left. apply N.leb_gt. lia.
Qed.

Lemma board_chars_no_surrogate (b : list (option str)) :
  existsb is_surrogate (map cell_char b) = false.
Proof.
  induction b as [|v b IH]; [reflexivity|].
  cbn [map existsb]. rewrite IH, orb_false_r.
  pose proof (cell_char_board_char v) as H. unfold board_char in H.
  apply orb_true_iff in H as [H | H]; [apply orb_true_iff in H as [H | H]|];
    apply N.eqb_eq in H; rewrite H; reflexivity.
Qed.

Lemma literal_no_surrogate (s : str) :
  is_literal_XO s = true -> existsb is_surrogate s = false.
Proof.
  unfold is_literal_XO. intros H. apply orb_true_iff in H.
  destruct H as [H | H]; apply str_eqb_eq in H; subst; reflexivity.
Qed.

Lemma bind_str_ok (s : str) :
  existsb is_surrogate s = false -> bind_str s = Ok (Utf8 s).
Proof. unfold bind_str. intros ->. reflexivity. Qed.

(** A payload that passes the field constraints can be bound. *)
Lemma fields_ok_bindable (p : GameStateIn.t) :
  outcome_fields_ok p = true -> bindable p = true.
Proof.
  unfold outcome_fields_ok, bindable. intros F.
  apply andb_true_iff in F as [F Fm]. apply andb_true_iff in F as [Fn Fw].
  rewrite (literal_no_surrogate _ Fn). cbn [negb andb].
  apply andb_true_iff. split.
  - destruct (GameStateIn.winner p) as [s|]; [|reflexivity].
    cbn in Fw. rewrite (literal_no_surrogate _ Fw). reflexivity.
  - unfold moves_in_range in Fm. unfold fits_int64.
    apply andb_true_iff in Fm as [A B].
    apply Z.leb_le in A, B. apply andb_true_iff. split; apply Z.leb_le; lia.
Qed.

Lemma valid_fields_ok (p : GameStateIn.t) :
  valid_payload p = true -> outcome_fields_ok p = true.
Proof.
  intros V. apply valid_payload_spec in V as [_ E].
  unfold GameStateIn_errors in E. apply errors_nil in E as (_ & En & Ew & Em).
  unfold outcome_fields_ok. rewrite En, Ew, Em. reflexivity.
Qed.

(** The INSERT of a save binds exactly when the payload is bindable: the
    encoded board and the clock reading always are. *)
Lemma bind_parameters_of_payload (rowid : Z) (p : GameStateIn.t)
    (now : string) :
  bind_parameters rowid (map cell_char (GameStateIn.board p))
    (GameStateIn.next_player p) (GameStateIn.winner p)
    (if GameStateIn.is_draw p then 1 else 0) (GameStateIn.moves p)
    (py now) (py now)
  = if bindable p
    then Ok (row_of rowid (map cell_char (GameStateIn.board p)) p (py now))
    else Raise (if existsb is_surrogate (GameStateIn.next_player p)
                then UnicodeEncodeError
                else match GameStateIn.winner p with
                     | Some s =>
                         if existsb is_surrogate s then UnicodeEncodeError
                         else OverflowError
                                "Python int too large to convert to SQLite INTEGER"
                     | None =>
                         OverflowError
                           "Python int too large to convert to SQLite INTEGER"
                     end).
Proof.
  unfold bind_parameters, bindable.
  rewrite (bind_str_ok _ (board_chars_no_surrogate _)). cbn [and_then].
  unfold bind_str at 1.
  destruct (existsb is_surrogate (GameStateIn.next_player p)); [reflexivity|].
  cbn [and_then negb andb].
  assert (D : bind_int (if GameStateIn.is_draw p then 1 else 0)
              = Ok (Integer (if GameStateIn.is_draw p then 1 else 0)))
    by (destruct (GameStateIn.is_draw p); reflexivity).
  unfold row_of.
  destruct (GameStateIn.winner p) as [s|]; cbn [bind_optional_str and_then].
  - unfold bind_str at 1. destruct (existsb is_surrogate s); [reflexivity|].
    cbn [and_then negb andb option_map]. rewrite D. cbn [and_then].
    unfold bind_int. destruct (fits_int64 (GameStateIn.moves p));
      [|reflexivity].
    cbn [and_then]. rewrite (bind_str_ok _ (py_no_surrogate now)).
    reflexivity.
  - rewrite D. cbn [and_then option_map].
    unfold bind_int. destruct (fits_int64 (GameStateIn.moves p));
      [|reflexivity].
    cbn [and_then]. rewrite (bind_str_ok _ (py_no_surrogate now)).
    reflexivity.
Qed.

(** What the driver reads back from a row a save wrote. *)
Lemma read_row_of (rowid : Z) (encoded : str) (p : GameStateIn.t) (now : str) :
  read_row (row_of rowid encoded p now) =
  Ok {| PyRow.id := rowid; PyRow.board := encoded;
        PyRow.next_player := GameStateIn.next_player p;
        PyRow.winner := GameStateIn.winner p;
        PyRow.is_draw := PyInt (if GameStateIn.is_draw p then 1 else 0);
        PyRow.moves := PyInt (GameStateIn.moves p);
        PyRow.created_at := now; PyRow.updated_at := now |}.
Proof.
  unfold read_row, row_of. cbn.
  destruct (GameStateIn.winner p); reflexivity.
Qed.

(** A save of nine cells, step by step: the clock is read, the INSERT
    binds or raises, the record is built from the normalised board. *)
Lemma save_nine_cells (p : GameStateIn.t) (w : World) :
  List.length (GameStateIn.board p) = 9%nat ->
  save_game_state p w =
  match bind_parameters (next_id w) (map cell_char (GameStateIn.board p))
          (GameStateIn.next_player p) (GameStateIn.winner p)
          (if GameStateIn.is_draw p then 1 else 0) (GameStateIn.moves p)
          (py (clock w (ticks w))) (py (clock w (ticks w))) with
  | Raise e => (Raise e, after_clock_read w)
  | Ok row =>
      (GameStateOut_new
         {| GameStateOut.id := next_id w;
            GameStateOut.board :=
              map char_cell (map cell_char (GameStateIn.board p));
            GameStateOut.next_player := GameStateIn.next_player p;
            GameStateOut.winner := GameStateIn.winner p;
            GameStateOut.is_draw := GameStateIn.is_draw p;
            GameStateOut.moves := GameStateIn.moves p;
            GameStateOut.created_at := py (clock w (ticks w));
            GameStateOut.updated_at := py (clock w (ticks w)) |},
       {| ttt_games := ttt_games w ++ [row];
          sqlite_sequence := next_id w;
          clock := clock w; ticks := S (ticks w) |})
  end.
Proof.
  intros L. unfold save_game_state.
  replace (len (GameStateIn.board p) =? 9) with true
    by (symmetry; apply len_eqb_9; exact L).
  cbn [negb]. unfold bind, _utc_now_iso, call, insert_ttt_games.
  rewrite (encode_ok _ L).
  change (next_id {| ttt_games := ttt_games w;
                     sqlite_sequence := sqlite_sequence w;
                     clock := clock w; ticks := S (ticks w) |})
    with (next_id w).
  cbn [ttt_games sqlite_sequence clock ticks].
  destruct (bind_parameters _ _ _ _ _ _ _ _); [|reflexivity].
  rewrite (decode_ok _ (encoded_ok _ L)). reflexivity.
Qed.

(** A save of a valid payload. *)
Lemma save_ok (p : GameStateIn.t) (w : World) :
  valid_payload p = true ->
  save_game_state p w =
  (Ok (record_of (next_id w) p (py (clock w (ticks w)))),
   world_after_save p (map cell_char (GameStateIn.board p)) w).
Proof.
  intros V. pose proof (fields_ok_bindable _ (valid_fields_ok _ V)) as B.
  apply valid_payload_spec in V as [L E].
  unfold GameStateIn_errors in E. apply errors_nil in E as [Eb [En [Ew Em]]].
  rewrite (save_nine_cells _ _ L), bind_parameters_of_payload, B.
  rewrite (decode_encode_cells _ Eb).
  rewrite GameStateOut_new_ok.
  - reflexivity.
  - unfold GameStateOut_errors. apply errors_nil. cbn. auto.
Qed.

(** The world a save of nine cells leaves. *)
Lemma save_appends (p : GameStateIn.t) (w : World) :
  List.length (GameStateIn.board p) = 9%nat ->
  snd (save_game_state p w) =
  if bindable p
  then world_after_save p (map cell_char (GameStateIn.board p)) w
  else after_clock_read w.
Proof.
  intros L. rewrite (save_nine_cells _ _ L), bind_parameters_of_payload.
  destruct (bindable p); reflexivity.
Qed.

Lemma save_rejects_length (p : GameStateIn.t) (w : World) :
  List.length (GameStateIn.board p) <> 9%nat ->
  save_game_state p w =
  (Raise (HTTPException 400 "board must be a 9-element array"), w).
Proof.
  intros L. unfold save_game_state.
  destruct (len (GameStateIn.board p) =? 9) eqn:E.
  - apply len_eqb_9 in E. contradiction.
  - reflexivity.
Qed.

(** Fetching when the latest row is [r]. *)
Lemma get_latest_of_row (int_of_str : str -> Z + string) (w : World)
    (r : Row.t) :
  order_by_id_desc_limit_1 (ttt_games w) = Some r ->
  get_latest_game_state int_of_str w =
  match read_row r with
  | Raise e => (Raise e, w)
  | Ok row =>
      match _decode_board (PyRow.board row) with
      | Raise e =>
          (Raise (HTTPException 500
                    ("Corrupt board data: " ++ exn_str e)%string), w)
      | Ok board =>
          match py_int int_of_str (PyRow.moves row) with
          | Raise e => (Raise e, w)
          | Ok m =>
              (GameStateOut_new
                 {| GameStateOut.id := PyRow.id row;
                    GameStateOut.board := board;
                    GameStateOut.next_player := PyRow.next_player row;
                    GameStateOut.winner := PyRow.winner row;
                    GameStateOut.is_draw := py_bool (PyRow.is_draw row);
                    GameStateOut.moves := m;
                    GameStateOut.created_at := PyRow.created_at row;
                    GameStateOut.updated_at := PyRow.updated_at row |}, w)
          end
      end
  end.
Proof.
  intros E. unfold get_latest_game_state, bind, select_latest, fetchone.
  rewrite E. destruct (read_row r) as [row|e]; [|reflexivity].
  cbn [and_then]. unfold try_except, call, raise.
  destruct (_decode_board (PyRow.board row)); [|reflexivity].
  destruct (py_int int_of_str (PyRow.moves row)); reflexivity.
Qed.

Lemma get_latest_of_empty (int_of_str : str -> Z + string) (w : World) :
  ttt_games w = [] ->
  get_latest_game_state int_of_str w =
  (Raise (HTTPException 404 "No saved game state"), w).
Proof.
  intros E.
  unfold get_latest_game_state, bind, select_latest, fetchone.
  rewrite E. reflexivity.
Qed.

(** Fetching right after a valid save returns the record the save
    returned. *)
Lemma latest_after_save (int_of_str : str -> Z + string)
    (p : GameStateIn.t) (w : World) :
  valid_payload p = true ->
  get_latest_game_state int_of_str
    (world_after_save p (map cell_char (GameStateIn.board p)) w) =
  (Ok (record_of (next_id w) p (py (clock w (ticks w)))),
   world_after_save p (map cell_char (GameStateIn.board p)) w).
Proof.
  intros V.
  set (w1 := world_after_save p (map cell_char (GameStateIn.board p)) w).
  pose proof V as V'.
  apply valid_payload_spec in V' as [L E].
  unfold GameStateIn_errors in E. apply errors_nil in E as [Eb [En [Ew Em]]].
  rewrite (get_latest_of_row int_of_str w1
             (row_of (next_id w) (map cell_char (GameStateIn.board p)) p
                     (py (clock w (ticks w))))).
  - rewrite read_row_of. cbn [PyRow.board PyRow.moves py_int].
    rewrite (decode_ok _ (encoded_ok _ L)).
    rewrite (decode_encode_cells _ Eb).
    rewrite GameStateOut_new_ok.
    + unfold record_of. cbn. destruct (GameStateIn.is_draw p); reflexivity.
    + unfold GameStateOut_errors. apply errors_nil. cbn. auto.
  - unfold w1, world_after_save. cbn [ttt_games].
    apply latest_after_append. intros r' H. cbn. apply next_id_fresh. exact H.
Qed.

Lemma next_id_after_save (p : GameStateIn.t) (e : str) (w : World) :
  next_id w < next_id (world_after_save p e w).
Proof. unfold next_id at 2, world_after_save. cbn. lia. Qed.

Lemma save_keeps_boards_ok (p : GameStateIn.t) (w : World) :
  boards_ok w -> boards_ok (snd (save_game_state p w)).
Proof.
  intros H.
  destruct (Nat.eq_dec (List.length (GameStateIn.board p)) 9) as [L | L].
  - rewrite (save_appends _ _ L). destruct (bindable p); [|exact H].
    unfold boards_ok, world_after_save.
    cbn [ttt_games]. apply Forall_app; split; [exact H|].
    constructor; [|constructor]. cbn. apply encoded_ok; exact L.
  - rewrite (save_rejects_length _ _ L). exact H.
Qed.

Lemma save_all_keeps_boards_ok (ps : list GameStateIn.t) (w : World) :
  boards_ok w -> boards_ok (save_all ps w).
Proof.
  revert w; induction ps as [|p ps IH]; intros w H; simpl; [exact H|].
  apply IH, save_keeps_boards_ok, H.
Qed.

Lemma corrupt_not_ok (s : str) :
  List.length s <> 9%nat \/
  (exists c, In c s /\ c <> 46%N /\ c <> 88%N /\ c <> 79%N) ->
  board_string_ok s = false.
Proof.
  intros H. unfold board_string_ok.
  destruct (len s =? 9) eqn:L; [|reflexivity]. apply len_eqb_9 in L.
  destruct H as [H | [c [Hin [H46 [H88 H79]]]]]; [contradiction|].
  cbn [andb]. destruct (forallb board_char s) eqn:F; [|reflexivity].
  rewrite forallb_forall in F. specialize (F c Hin). unfold board_char in F.
  apply N.eqb_neq in H46, H88, H79. rewrite H46, H88, H79 in F. discriminate.
Qed.

(** Saving valid payloads in turn and fetching after each: every save and
    every fetch returns the same record, and the ids start at the store's
    next id and grow. *)
Lemma save_and_fetch_each_ok (int_of_str : str -> Z + string)
    (ps : list GameStateIn.t) :
  Forall (fun p => valid_payload p = true) ps ->
  forall w, exists outs : list GameStateOut.t,
    List.length outs = List.length ps /\
    map saved (save_and_fetch_each int_of_str ps w) = map Ok outs /\
    map latest (save_and_fetch_each int_of_str ps w) = map Ok outs /\
    Forall (fun o => next_id w <= GameStateOut.id o) outs /\
    StronglySorted Z.lt (map GameStateOut.id outs) /\
    Forall (fun s => forall o, latest s = Ok o ->
              (exists r, In r (table s) /\ Row.id r = GameStateOut.id o) /\
              (forall r, In r (table s) -> Row.id r <= GameStateOut.id o))
           (save_and_fetch_each int_of_str ps w).
Proof.
  induction 1 as [|p ps V _ IH]; intros w.
  - exists []. simpl. repeat split; constructor.
  - cbn [save_and_fetch_each].
    rewrite (save_ok _ w V), (latest_after_save int_of_str _ w V).
    set (w1 := world_after_save p (map cell_char (GameStateIn.board p)) w).
    set (o1 := record_of (next_id w) p (py (clock w (ticks w)))).
    destruct (IH w1) as [outs [Hlen [Hs [Hl [Hge [Hsorted Hmax]]]]]].
    pose proof (next_id_after_save p (map cell_char (GameStateIn.board p)) w)
      as Hfresh. fold w1 in Hfresh.
    exists (o1 :: outs). cbn [map List.length saved latest].
    split; [congruence|]. split; [congruence|]. split; [congruence|].
    split; [|split].
    + constructor; [cbn; lia|].
      eapply Forall_impl; [|exact Hge]. cbn beta. intros o Ho. lia.
    + constructor; [exact Hsorted|].
      apply Forall_forall. intros i Hi. apply in_map_iff in Hi as [o [<- Ho]].
      rewrite Forall_forall in Hge. specialize (Hge o Ho). cbn. lia.
    + constructor; [|exact Hmax].
      cbn [latest table]. intros o Eo. injection Eo as <-.
      unfold w1, world_after_save. cbn [ttt_games].
      split.
      * eexists. split; [apply in_or_app; right; left; reflexivity|].
        reflexivity.
      * intros r Hr. apply in_app_or in Hr as [Hr | [<- | []]].
        -- apply next_id_fresh in Hr. cbn. lia.
        -- cbn. lia.
Qed.

Lemma GameStateOut_new_not_http (o : GameStateOut.t) (c : Z) (d : string) :
  GameStateOut_new o <> Raise (HTTPException c d).
Proof.
  unfold GameStateOut_new. destruct (GameStateOut_errors o); discriminate.
Qed.

(** What a successful read says about the stored row, column by column. *)
Lemma read_row_ok (r : Row.t) (row : PyRow.t) :
  read_row r = Ok row ->
  PyRow.id row = Row.id r /\
  Row.board r = Utf8 (PyRow.board row) /\
  Row.next_player r = Utf8 (PyRow.next_player row) /\
  Row.winner r = option_map Utf8 (PyRow.winner row) /\
  read_numeric "is_draw" (Row.is_draw r) = Ok (PyRow.is_draw row) /\
  read_numeric "moves" (Row.moves r) = Ok (PyRow.moves row) /\
  Row.created_at r = Utf8 (PyRow.created_at row) /\
  Row.updated_at r = Utf8 (PyRow.updated_at row).
Proof.
  unfold read_row.
  destruct (Row.board r) as [b|]; [|discriminate]. cbn [read_text and_then].
  destruct (Row.next_player r) as [n|]; [|discriminate].
  cbn [read_text and_then].
  destruct (Row.winner r) as [[wi|]|]; cbn [read_optional_text read_text and_then];
    try discriminate;
    (destruct (read_numeric "is_draw" (Row.is_draw r)) as [d|];
       [|discriminate]; cbn [and_then];
     destruct (read_numeric "moves" (Row.moves r)) as [m|];
       [|discriminate]; cbn [and_then];
     destruct (Row.created_at r) as [c|]; [|discriminate];
     cbn [read_text and_then];
     destruct (Row.updated_at r) as [u|]; [|discriminate];
     cbn [read_text and_then];
     intros H; injection H as <-; cbn; repeat split; reflexivity).
Qed.

Lemma read_text_raises (column : string) (t : text) (e : exn) :
  read_text column t = Raise e -> e = OperationalError column.
Proof. destruct t; cbn; intros H; [discriminate | congruence]. Qed.

Lemma read_numeric_raises (column : string) (v : numeric) (e : exn) :
  read_numeric column v = Raise e -> e = OperationalError column.
Proof.
  destruct v as [z|f|[s|]]; cbn; intros H; try discriminate. congruence.
Qed.

(** Reading a row raises nothing but the driver's decoding error. *)
Lemma read_row_raises (r : Row.t) (e : exn) :
  read_row r = Raise e -> exists column, e = OperationalError column.
Proof.
  unfold read_row.
  destruct (Row.board r) as [b|]; cbn [read_text and_then];
    [|intros H; injection H as <-; eauto].
  destruct (Row.next_player r) as [n|]; cbn [read_text and_then];
    [|intros H; injection H as <-; eauto].
  destruct (Row.winner r) as [[wi|]|];
    cbn [read_optional_text read_text and_then];
    try (intros H; injection H as <-; eauto; fail);
    (destruct (read_numeric "is_draw" (Row.is_draw r)) as [d|e1] eqn:Ed;
       cbn [and_then];
       [|intros H; injection H as <-;
         apply read_numeric_raises in Ed; eauto];
     destruct (read_numeric "moves" (Row.moves r)) as [m|e2] eqn:Em;
       cbn [and_then];
       [|intros H; injection H as <-;
         apply read_numeric_raises in Em; eauto];
     destruct (Row.created_at r) as [c|]; cbn [read_text and_then];
       [|intros H; injection H as <-; eauto];
     destruct (Row.updated_at r) as [u|]; cbn [read_text and_then];
       [discriminate | intros H; injection H as <-; eauto]).
Qed.

(** [int] raises a [ValueError] or an [OverflowError], nothing else. *)
Lemma py_int_raises (int_of_str : str -> Z + string) (v : pynum) (e : exn) :
  py_int int_of_str v = Raise e ->
  (exists msg, e = ValueError msg) \/ (exists msg, e = OverflowError msg).
Proof.
  destruct v as [z|f|s]; cbn.
  - discriminate.
  - destruct f; cbn; intros H; try discriminate; injection H as <-; eauto.
  - destruct (int_of_str s); intros H; [discriminate|].
    injection H as <-. eauto.
Qed.

(** ** Handler theorems *)

(** C2: for every valid payload (nine cells of "X", "O" or null, a valid
    next player and winner, moves within 0..9) [save_game_state] returns a
    record whose board, next player, winner, draw flag and moves are the
    payload's, whose id is the one the insert assigned, and whose two
    timestamps are the single clock reading taken before the insert, which
    is also what the inserted row holds; the returned board is the decoding
    of the string that was just encoded and written. *)
Theorem save_returns_what_was_written (p : GameStateIn.t) (w : World) :
  valid_payload p = true ->
  exists (encoded : str) (out : GameStateOut.t),
    _encode_board (GameStateIn.board p) = Ok encoded /\
    save_game_state p w = (Ok out, world_after_save p encoded w) /\
    ttt_games (world_after_save p encoded w) =
      ttt_games w ++
      [row_of (GameStateOut.id out) encoded p (py (clock w (ticks w)))] /\
    GameStateOut.id out = next_id w /\
    GameStateOut.board out = GameStateIn.board p /\
    GameStateOut.next_player out = GameStateIn.next_player p /\
    GameStateOut.winner out = GameStateIn.winner p /\
    GameStateOut.is_draw out = GameStateIn.is_draw p /\
    GameStateOut.moves out = GameStateIn.moves p /\
    GameStateOut.created_at out = py (clock w (ticks w)) /\
    GameStateOut.updated_at out = py (clock w (ticks w)) /\
    _decode_board encoded = Ok (GameStateOut.board out).
Proof.
  intros V. pose proof V as V'.
  apply valid_payload_spec in V' as [L E].
  unfold GameStateIn_errors in E. apply errors_nil in E as [Eb _].
  exists (map cell_char (GameStateIn.board p)).
  exists (record_of (next_id w) p (py (clock w (ticks w)))).
  split; [apply encode_ok; exact L|].
  split; [apply save_ok; exact V|].
  repeat (split; [reflexivity|]).
  cbn [record_of GameStateOut.board].
  rewrite (decode_ok _ (encoded_ok _ L)), (decode_encode_cells _ Eb).
  reflexivity.
Qed.

Lemma save_returns_what_was_written_witness :
  valid_payload example_payload = true /\
  exists (encoded : str) (out : GameStateOut.t),
    encoded = py "X...O...." /\
    save_game_state example_payload (empty_store example_clock)
    = (Ok out, world_after_save example_payload encoded
                 (empty_store example_clock)) /\
    GameStateOut.id out = 1 /\
    GameStateOut.board out = GameStateIn.board example_payload /\
    GameStateOut.created_at out = py "2024-05-01T12:00:00+00:00" /\
    GameStateOut.updated_at out = py "2024-05-01T12:00:00+00:00".
Proof.
  split; [reflexivity|].
  destruct (save_returns_what_was_written example_payload
              (empty_store example_clock) eq_refl)
    as (encoded & out & E & Hsave & _ & Hid & Hb & _ & _ & _ & _ & Hc & Hu & _).
  exists encoded, out.
  split; [vm_compute in E; injection E as <-; reflexivity|].
  split; [exact Hsave|].
  split; [exact Hid|].
  split; [exact Hb|].
  split; [exact Hc | exact Hu].
Defined.

(** C3: saving N valid payloads in sequence, from any store, and fetching
    the latest after each save: the N saves return N strictly increasing
    ids, and each fetch returns the record just saved, whose id belongs to
    a row of the table and is the largest id in it. *)
Theorem ids_increase_and_latest_is_last (int_of_str : str -> Z + string)
    (ps : list GameStateIn.t) (w : World) :
  Forall (fun p => valid_payload p = true) ps ->
  exists outs : list GameStateOut.t,
    List.length outs = List.length ps /\
    map saved (save_and_fetch_each int_of_str ps w) = map Ok outs /\
    map latest (save_and_fetch_each int_of_str ps w) = map Ok outs /\
    StronglySorted Z.lt (map GameStateOut.id outs) /\
    Forall (fun s => forall o, latest s = Ok o ->
              (exists r, In r (table s) /\ Row.id r = GameStateOut.id o) /\
              (forall r, In r (table s) -> Row.id r <= GameStateOut.id o))
           (save_and_fetch_each int_of_str ps w).
Proof.
  intros V.
  destruct (save_and_fetch_each_ok int_of_str ps V w)
    as [outs [Hlen [Hs [Hl [_ [Hsorted Hmax]]]]]].
  exists outs. auto.
Qed.

Lemma ids_increase_and_latest_is_last_witness :
  exists outs : list GameStateOut.t,
    map GameStateOut.id outs = [1; 2; 3] /\
    map latest (save_and_fetch_each no_int
                  [example_payload; example_payload; example_payload]
                  (empty_store example_clock)) = map Ok outs /\
    StronglySorted Z.lt (map GameStateOut.id outs).
Proof.
  destruct (ids_increase_and_latest_is_last no_int
              [example_payload; example_payload; example_payload]
              (empty_store example_clock))
    as [outs [_ [Hs [Hl [Hsorted _]]]]].
  - repeat constructor.
  - exists outs. split; [|split; assumption].
    assert (E : map (fun o => Ok (GameStateOut.id o)) outs =
                [Ok 1; Ok 2; Ok 3]).
    { rewrite <- (map_map Ok (fun r => match r with
                                       | Ok o => Ok (GameStateOut.id o)
                                       | Raise e => Raise e
                                       end)).
      rewrite <- Hs. reflexivity. }
    destruct outs as [|a [|b [|c [|d rest]]]]; try discriminate E.
    cbn in E. cbn. congruence.
Defined.

(** C4: a board whose stored bytes are not UTF-8 makes the fetch crash.
    With such a board in the only row of the table, [fetchone] raises the
    driver's [OperationalError] before the handler reaches the [try] that
    turns decoding failures into the HTTP 500 "corrupt board data"
    exception: the handler raises that error, not an [HTTPException]. *)
Theorem corrupt_bytes_crash_fetch (int_of_str : str -> Z + string) :
  get_latest_game_state int_of_str
    {| ttt_games :=
         [{| Row.id := 1; Row.board := NotUtf8;
             Row.next_player := Utf8 (py "O"); Row.winner := None;
             Row.is_draw := Integer 0; Row.moves := Integer 2;
             Row.created_at := Utf8 (py (example_clock 0));
             Row.updated_at := Utf8 (py (example_clock 0)) |}];
       sqlite_sequence := 1; clock := example_clock; ticks := 1%nat |}
  = (Raise (OperationalError "board"),
     {| ttt_games :=
          [{| Row.id := 1; Row.board := NotUtf8;
              Row.next_player := Utf8 (py "O"); Row.winner := None;
              Row.is_draw := Integer 0; Row.moves := Integer 2;
              Row.created_at := Utf8 (py (example_clock 0));
              Row.updated_at := Utf8 (py (example_clock 0)) |}];
        sqlite_sequence := 1; clock := example_clock; ticks := 1%nat |}) /\
  forall c d,
    fst (get_latest_game_state int_of_str
           {| ttt_games :=
                [{| Row.id := 1; Row.board := NotUtf8;
                    Row.next_player := Utf8 (py "O"); Row.winner := None;
                    Row.is_draw := Integer 0; Row.moves := Integer 2;
                    Row.created_at := Utf8 (py (example_clock 0));
                    Row.updated_at := Utf8 (py (example_clock 0)) |}];
              sqlite_sequence := 1; clock := example_clock; ticks := 1%nat |})
    <> Raise (HTTPException c d).
Proof.
  split; [reflexivity|]. intros c d. cbn. discriminate.
Qed.

(** C5: on a store with no row [get_latest_game_state] raises the HTTP 404
    exception and returns no record. *)
Theorem empty_store_is_404 (int_of_str : str -> Z + string) (w : World) :
  ttt_games w = [] ->
  get_latest_game_state int_of_str w =
  (Raise (HTTPException 404 "No saved game state"), w) /\
  forall o, fst (get_latest_game_state int_of_str w) <> Ok o.
Proof.
  intros E.
  rewrite (get_latest_of_empty int_of_str w E).
  split; [reflexivity | discriminate].
Qed.

Lemma empty_store_is_404_witness :
  get_latest_game_state no_int (empty_store example_clock) =
  (Raise (HTTPException 404 "No saved game state"), empty_store example_clock).
Proof.
  apply (empty_store_is_404 no_int (empty_store example_clock)). reflexivity.
Defined.

(** C6: [save_game_state] on a board whose length is not 9 raises the
    HTTP 400 exception and leaves the store as it was: no row is written,
    no id is used up, the clock is not read. *)
Theorem bad_length_is_400 (p : GameStateIn.t) (w : World) :
  List.length (GameStateIn.board p) <> 9%nat ->
  fst (save_game_state p w) =
    Raise (HTTPException 400 "board must be a 9-element array") /\
  snd (save_game_state p w) = w.
Proof.
  intros L. rewrite (save_rejects_length _ _ L). split; reflexivity.
Qed.

Lemma bad_length_is_400_witness :
  (fst (save_game_state
          {| GameStateIn.board := [None; None; None; None; None; None; None; None];
             GameStateIn.next_player := py "X"; GameStateIn.winner := None;
             GameStateIn.is_draw := false; GameStateIn.moves := 0 |}
          (empty_store example_clock))
   = Raise (HTTPException 400 "board must be a 9-element array")) /\
  (snd (save_game_state
          {| GameStateIn.board := [None; None; None; None; None; None; None;
                                   None; None; Some (py "X")];
             GameStateIn.next_player := py "X"; GameStateIn.winner := None;
             GameStateIn.is_draw := false; GameStateIn.moves := 1 |}
          (empty_store example_clock))
   = empty_store example_clock).
Proof.
  split.
  - apply bad_length_is_400. cbn. lia.
  - apply bad_length_is_400. cbn. lia.
Defined.

(** C8: a request whose [moves] is an integer below 0 or above 9 is
    rejected by the validation of [GameStateIn], with "moves" among the
    failing fields, and the handler does not run: the store is as it was.
    For [moves] within 0..9 validation does not fail on that field. *)
Theorem moves_out_of_range_rejected :
  (forall (body : GameStateIn.t) (w : World),
     GameStateIn.moves body < 0 \/ 9 < GameStateIn.moves body ->
     exists loc, In "moves" loc /\
       POST_api_games body w = (Raise (ValidationError loc), w)) /\
  (forall body : GameStateIn.t,
     0 <= GameStateIn.moves body <= 9 ->
     ~ In "moves" (GameStateIn_errors body)).
Proof.
  split.
  - intros body w H.
    assert (R : moves_in_range (GameStateIn.moves body) = false).
    { unfold moves_in_range. apply andb_false_iff.
      destruct H; [left; apply Z.leb_gt | right; apply Z.leb_gt]; assumption. }
    assert (Hin : In "moves" (GameStateIn_errors body)).
    { unfold GameStateIn_errors. rewrite R.
      repeat (apply in_or_app; right). left; reflexivity. }
    exists (GameStateIn_errors body). split; [exact Hin|].
    unfold POST_api_games.
    destruct (GameStateIn_errors body); [contradiction | reflexivity].
  - intros body H.
    assert (R : moves_in_range (GameStateIn.moves body) = true).
    { unfold moves_in_range. apply andb_true_iff.
      split; apply Z.leb_le; lia. }
    unfold GameStateIn_errors. rewrite R. cbn [check]. rewrite app_nil_r.
    intros Hin.
    repeat (apply in_app_or in Hin as [Hin | Hin]);
      match type of Hin with
      | In _ (check ?b _) => destruct b; cbn in Hin
      end;
      try contradiction; destruct Hin as [Hin | []]; discriminate Hin.
Qed.

Lemma moves_out_of_range_rejected_witness :
  (exists loc, In "moves" loc /\
     POST_api_games
       {| GameStateIn.board := GameStateIn.board example_payload;
          GameStateIn.next_player := py "X"; GameStateIn.winner := None;
          GameStateIn.is_draw := false; GameStateIn.moves := 10 |}
       (empty_store example_clock)
     = (Raise (ValidationError loc), empty_store example_clock)) /\
  ~ In "moves" (GameStateIn_errors example_payload).
Proof.
  split.
  - apply (proj1 moves_out_of_range_rejected). cbn. lia.
  - apply (proj2 moves_out_of_range_rejected). cbn. lia.
Defined.

(** C9: every row [save_game_state] inserts has a board of exactly nine
    characters, each '.', 'X' or 'O', whatever the payload and the store;
    so in a store filled only by [save_game_state], starting from the empty
    table, all boards are well-formed, the board of the latest row decodes,
    and [get_latest_game_state] never raises the HTTP 500 "corrupt board
    data" exception. *)
Theorem saved_boards_always_decode :
  (forall (p : GameStateIn.t) (w : World),
     ttt_games (snd (save_game_state p w)) = ttt_games w \/
     exists r s, ttt_games (snd (save_game_state p w)) = ttt_games w ++ [r] /\
                 Row.board r = Utf8 s /\ board_string_ok s = true) /\
  (forall (ps : list GameStateIn.t) (clk : nat -> string),
     let w := save_all ps (empty_store clk) in
     Forall (fun r => exists s, Row.board r = Utf8 s /\
                                board_string_ok s = true) (ttt_games w) /\
     (forall r, order_by_id_desc_limit_1 (ttt_games w) = Some r ->
                exists s b, Row.board r = Utf8 s /\ _decode_board s = Ok b) /\
     (forall int_of_str d,
        fst (get_latest_game_state int_of_str w)
        <> Raise (HTTPException 500 d))).
Proof.
  split.
  - intros p w.
    destruct (Nat.eq_dec (List.length (GameStateIn.board p)) 9) as [L | L].
    + rewrite (save_appends _ _ L). destruct (bindable p).
      * right. do 2 eexists. split; [reflexivity|].
        split; [reflexivity|]. apply encoded_ok; exact L.
      * left. reflexivity.
    + left. rewrite (save_rejects_length _ _ L). reflexivity.
  - intros ps clk w.
    assert (Inv : boards_ok w).
    { apply save_all_keeps_boards_ok. constructor. }
    assert (Inv' : forall r, In r (ttt_games w) ->
                     exists s, Row.board r = Utf8 s /\
                               board_string_ok s = true).
    { intros r Hr. unfold boards_ok in Inv. rewrite Forall_forall in Inv.
      specialize (Inv r Hr). destruct (Row.board r) as [s|]; [|discriminate].
      eauto. }
    split; [apply Forall_forall; exact Inv'|].
    split.
    + intros r E. apply latest_in in E.
      destruct (Inv' r E) as (s & Es & Ws).
      exists s, (map char_cell s). split; [exact Es | apply decode_ok, Ws].
    + intros int_of_str d.
      destruct (order_by_id_desc_limit_1 (ttt_games w)) as [r|] eqn:E.
      * rewrite (get_latest_of_row int_of_str w r E).
        destruct (read_row r) as [row|e] eqn:R.
        -- destruct (Inv' r (latest_in _ _ E)) as (s & Es & Ws).
           destruct (read_row_ok _ _ R) as (_ & Eb & _).
           assert (PyRow.board row = s) by congruence. subst s.
           rewrite (decode_ok _ Ws).
           destruct (py_int int_of_str (PyRow.moves row)) as [m|e] eqn:I.
           ++ cbn [fst]. apply GameStateOut_new_not_http.
           ++ cbn [fst]. destruct (py_int_raises _ _ _ I) as [[msg ->] | [msg ->]];
                discriminate.
        -- cbn [fst]. destruct (read_row_raises _ _ R) as [c ->]. discriminate.
      * apply latest_none in E.
        rewrite (get_latest_of_empty int_of_str w E). discriminate.
Qed.

Lemma saved_boards_always_decode_witness :
  exists r s b,
    order_by_id_desc_limit_1
      (ttt_games (save_all [example_payload; example_payload]
                           (empty_store example_clock))) = Some r /\
    Row.id r = 2 /\
    Row.board r = Utf8 s /\
    _decode_board s = Ok b.
Proof.
  pose proof (proj2 saved_boards_always_decode
                [example_payload; example_payload] example_clock) as H.
  cbv zeta in H. destruct H as (_ & Hdec & _).
  destruct (Hdec (row_of 2 (py "X...O....") example_payload
                         (py (example_clock 1)))
                 eq_refl) as (s & b & Hs & Hb).
  exists (row_of 2 (py "X...O....") example_payload (py (example_clock 1))),
         s, b.
  split; [reflexivity|]. split; [reflexivity|]. split; assumption.
Defined.


(** ** Worked examples *)

Example encode_example :
  _encode_board (GameStateIn.board example_payload) = Ok (py "X...O....").
Proof. reflexivity. Qed.

Example decode_example :
  _decode_board (py "X...O....") = Ok (GameStateIn.board example_payload).
Proof. reflexivity. Qed.

Example decode_lowercase_example :
  _decode_board (py "x...O....") = Raise (ValueError "invalid board encoding").
Proof. reflexivity. Qed.

(** Save, then fetch, on the empty store: the fetch returns the record the
    save returned, under id 1, with equal timestamps. *)
Example save_then_fetch_example :
  let (s, w1) := save_game_state example_payload (empty_store example_clock) in
  let (l, _) := get_latest_game_state no_int w1 in
  s = Ok (record_of 1 example_payload (py "2024-05-01T12:00:00+00:00")) /\
  l = s.
Proof. vm_compute. split; reflexivity. Qed.

(** A body with a ten-cell board passes the validation of [GameStateIn] and
    is turned down by the handler itself. *)
Example ten_cells_example :
  POST_api_games
    {| GameStateIn.board := List.repeat None 10;
       GameStateIn.next_player := py "X"; GameStateIn.winner := None;
       GameStateIn.is_draw := false; GameStateIn.moves := 0 |}
    (empty_store example_clock)
  = (Raise (HTTPException 400 "board must be a 9-element array"),
     empty_store example_clock).
Proof. reflexivity. Qed.

(** ** Further properties of the codec *)

Lemma char_cell_ok (c : char) : board_char c = true -> cell_ok (char_cell c) = true.
Proof.
  unfold board_char, char_cell, cell_ok, is_literal_XO. intros H.
  destruct (N.eqb c 46); [reflexivity|].
  rewrite ch_is_X, ch_is_O. exact H.
Qed.

(** What a successful decode says about its argument and its result. *)
Lemma decode_inv (s : str) (b : list (option str)) :
  _decode_board s = Ok b ->
  board_string_ok s = true /\ b = map char_cell s.
Proof.
  intros E. destruct (board_string_ok s) eqn:W.
  - rewrite (decode_ok _ W) in E. injection E as <-. auto.
  - destruct (decode_bad _ W) as [msg R]. congruence.
Qed.

(** What the codec makes of a cell: "X" and "O" are kept, anything else
    reads back as null. *)
Lemma char_cell_of_cell (v : option str) :
  char_cell (cell_char v) = if py_in v [py "X"; py "O"] then v else None.
Proof.
  destruct v as [s|]; [|reflexivity].
  unfold cell_char, py_in. cbn [existsb]. rewrite orb_false_r.
  destruct (str_eqb s (py "X")) eqn:EX.
  - apply str_eqb_eq in EX. subst. reflexivity.
  - destruct (str_eqb s (py "O")) eqn:EO; [|reflexivity].
    apply str_eqb_eq in EO. subst. reflexivity.
Qed.

Lemma cell_char_idem (v : option str) :
  cell_char (char_cell (cell_char v)) = cell_char v.
Proof. apply char_cell_char, cell_char_board_char. Qed.

(** X1: whatever [_decode_board] returns is a valid board: exactly nine
    cells, each null, "X" or "O". *)
Theorem decode_returns_valid_board (s : str) (b : list (option str)) :
  _decode_board s = Ok b ->
  List.length b = 9%nat /\ valid_board b = true.
Proof.
  intros E. apply decode_inv in E as [W ->].
  unfold board_string_ok in W. apply andb_true_iff in W as [L C].
  apply len_eqb_9 in L.
  assert (L' : List.length (map char_cell s) = 9%nat)
    by (rewrite length_map; exact L).
  split; [exact L'|].
  unfold valid_board. apply andb_true_iff. split; [apply len_eqb_9; exact L'|].
  rewrite forallb_forall in *. intros v Hv.
  apply in_map_iff in Hv as [c [<- Hc]]. apply char_cell_ok, C, Hc.
Qed.

Lemma decode_returns_valid_board_witness :
  List.length [Some (py "O"); Some (py "X"); None; None; Some (py "X");
               None; None; None; Some (py "O")] = 9%nat /\
  valid_board [Some (py "O"); Some (py "X"); None; None; Some (py "X");
               None; None; None; Some (py "O")] = true.
Proof. apply (decode_returns_valid_board (py "OX..X...O")). reflexivity. Defined.

(** X2: [_decode_board] is injective: two stored strings that decode to
    the same board are the same string. *)
Theorem decode_injective (s1 s2 : str) (b : list (option str)) :
  _decode_board s1 = Ok b -> _decode_board s2 = Ok b -> s1 = s2.
Proof.
  intros E1 E2.
  apply decode_inv in E1 as [W1 B1]. apply decode_inv in E2 as [W2 B2].
  unfold board_string_ok in W1, W2.
  apply andb_true_iff in W1 as [_ C1]. apply andb_true_iff in W2 as [_ C2].
  rewrite <- (encode_decode_chars _ C1), <- (encode_decode_chars _ C2).
  congruence.
Qed.

Lemma decode_injective_witness :
  py "OX..X...O" = [79; 88; 46; 46; 88; 46; 46; 46; 79]%N.
Proof.
  apply (decode_injective _ _
           [Some (py "O"); Some (py "X"); None; None; Some (py "X");
            None; None; None; Some (py "O")]); reflexivity.
Defined.

(** X3: encoding and decoding again normalises a board.  For every list of
    nine cells, whatever strings they hold, the round trip returns a valid
    board that keeps each "X" and "O" cell and has null everywhere else,
    and that board encodes to the same string as the original. *)
Theorem encode_decode_normalises (b : list (option str)) :
  List.length b = 9%nat ->
  exists b',
    and_then (_encode_board b) _decode_board = Ok b' /\
    valid_board b' = true /\
    (forall i v, nth_error b i = Some v ->
       nth_error b' i = Some (if py_in v [py "X"; py "O"] then v else None)) /\
    _encode_board b' = _encode_board b.
Proof.
  intros L. exists (map char_cell (map cell_char b)).
  assert (D : and_then (_encode_board b) _decode_board
              = Ok (map char_cell (map cell_char b))).
  { rewrite (encode_ok _ L). cbn [and_then].
    apply decode_ok, encoded_ok, L. }
  split; [exact D|].
  rewrite (encode_ok _ L) in D. cbn [and_then] in D.
  split; [apply (decode_returns_valid_board _ _ D)|].
  split.
  - intros i v Hv. rewrite !nth_error_map, Hv. cbn [option_map].
    rewrite char_cell_of_cell. reflexivity.
  - rewrite (encode_ok _ L), encode_ok by (rewrite !length_map; exact L).
    f_equal. rewrite !map_map. apply map_ext. exact cell_char_idem.
Qed.

Lemma encode_decode_normalises_witness :
  exists b',
    and_then (_encode_board [Some (py "X"); Some (py "Z"); None; Some (py "XO");
                             Some (py "O"); Some (py "x"); Some []; None;
                             Some (py ".")]) _decode_board = Ok b' /\
    b' = [Some (py "X"); None; None; None; Some (py "O");
          None; None; None; None].
Proof.
  destruct (encode_decode_normalises
              [Some (py "X"); Some (py "Z"); None; Some (py "XO");
               Some (py "O"); Some (py "x"); Some []; None; Some (py ".")]
              eq_refl) as (b' & D & _).
  exists b'. split; [exact D|].
  vm_compute in D. injection D as <-. reflexivity.
Defined.

(** X4: on valid boards [_encode_board] is injective: two valid boards
    with the same storage string are the same board. *)
Theorem encode_injective_on_valid (b1 b2 : list (option str)) :
  valid_board b1 = true -> valid_board b2 = true ->
  _encode_board b1 = _encode_board b2 -> b1 = b2.
Proof.
  unfold valid_board. intros V1 V2 E.
  apply andb_true_iff in V1 as [L1 C1]. apply andb_true_iff in V2 as [L2 C2].
  apply len_eqb_9 in L1, L2.
  rewrite (encode_ok _ L1), (encode_ok _ L2) in E. injection E as E.
  rewrite <- (decode_encode_cells _ C1), <- (decode_encode_cells _ C2).
  congruence.
Qed.

Lemma encode_injective_on_valid_witness :
  GameStateIn.board example_payload
  = [Some [88%N]; None; None; None; Some [79%N]; None; None; None; None].
Proof.
  apply encode_injective_on_valid; reflexivity.
Defined.

(** ** Further properties of the handlers *)

Lemma nine_cells_spec (p : GameStateIn.t) :
  nine_cells p = true <-> List.length (GameStateIn.board p) = 9%nat.
Proof. apply len_eqb_9. Qed.

(** The world any save leaves behind. *)
Lemma save_world (p : GameStateIn.t) (w : World) :
  snd (save_game_state p w) =
  if nine_cells p
  then if bindable p
       then world_after_save p (map cell_char (GameStateIn.board p)) w
       else after_clock_read w
  else w.
Proof.
  destruct (nine_cells p) eqn:N.
  - apply save_appends, nine_cells_spec, N.
  - rewrite save_rejects_length; [reflexivity|].
    intros L. apply nine_cells_spec in L. congruence.
Qed.

(** What a save of nine bindable cells returns: the validated record built
    from the normalised board. *)
Lemma save_result (p : GameStateIn.t) (w : World) :
  List.length (GameStateIn.board p) = 9%nat ->
  bindable p = true ->
  fst (save_game_state p w) =
  GameStateOut_new
    {| GameStateOut.id := next_id w;
       GameStateOut.board := map char_cell (map cell_char (GameStateIn.board p));
       GameStateOut.next_player := GameStateIn.next_player p;
       GameStateOut.winner := GameStateIn.winner p;
       GameStateOut.is_draw := GameStateIn.is_draw p;
       GameStateOut.moves := GameStateIn.moves p;
       GameStateOut.created_at := py (clock w (ticks w));
       GameStateOut.updated_at := py (clock w (ticks w)) |}.
Proof.
  intros L B.
  rewrite (save_nine_cells _ _ L), bind_parameters_of_payload, B.
  reflexivity.
Qed.

(** What a save returns when a field cannot be bound. *)
Lemma save_unbindable (p : GameStateIn.t) (w : World) :
  List.length (GameStateIn.board p) = 9%nat ->
  bindable p = false ->
  exists e,
    save_game_state p w = (Raise e, after_clock_read w) /\
    (e = UnicodeEncodeError \/
     e = OverflowError "Python int too large to convert to SQLite INTEGER").
Proof.
  intros L B.
  rewrite (save_nine_cells _ _ L), bind_parameters_of_payload, B.
  eexists. split; [reflexivity|].
  destruct (existsb is_surrogate (GameStateIn.next_player p)); [auto|].
  destruct (GameStateIn.winner p) as [s|]; [|auto].
  destruct (existsb is_surrogate s); auto.
Qed.

Lemma normalised_cells_ok (b : list (option str)) :
  forallb cell_ok (map char_cell (map cell_char b)) = true.
Proof.
  rewrite forallb_forall. intros v Hv.
  apply in_map_iff in Hv as [c [<- Hc]].
  apply in_map_iff in Hc as [v' [<- _]].
  apply char_cell_ok, cell_char_board_char.
Qed.

Lemma decoded_cells_ok (s : str) :
  board_string_ok s = true -> forallb cell_ok (map char_cell s) = true.
Proof.
  unfold board_string_ok. intros W. apply andb_true_iff in W as [_ C].
  rewrite forallb_forall in *. intros v Hv.
  apply in_map_iff in Hv as [c [<- Hc]]. apply char_cell_ok, C, Hc.
Qed.

(** The constructor accepts a record exactly when its fields pass. *)
Lemma GameStateOut_new_cases (o : GameStateOut.t) :
  (GameStateOut_errors o = [] /\ GameStateOut_new o = Ok o) \/
  (GameStateOut_errors o <> [] /\
   GameStateOut_new o = Raise (ValidationError (GameStateOut_errors o))).
Proof.
  unfold GameStateOut_new. destruct (GameStateOut_errors o) eqn:E.
  - left; auto.
  - right; split; [discriminate | reflexivity].
Qed.

Lemma errors_not_nil (a b c d : bool) (fa fb fc fd : string) :
  b && c && d = false ->
  check a fa ++ check b fb ++ check c fc ++ check d fd <> [].
Proof.
  intros H E. apply errors_nil in E as (_ & -> & -> & ->). discriminate.
Qed.

(** Fetching when the latest row reads as [row], its board is well-formed
    and [int] makes [m] of its [moves]. *)
Lemma get_latest_of_good_board (int_of_str : str -> Z + string) (w : World)
    (r : Row.t) (row : PyRow.t) (m : Z) :
  is_latest r (ttt_games w) ->
  read_row r = Ok row ->
  board_string_ok (PyRow.board row) = true ->
  py_int int_of_str (PyRow.moves row) = Ok m ->
  get_latest_game_state int_of_str w =
  (GameStateOut_new
     {| GameStateOut.id := PyRow.id row;
        GameStateOut.board := map char_cell (PyRow.board row);
        GameStateOut.next_player := PyRow.next_player row;
        GameStateOut.winner := PyRow.winner row;
        GameStateOut.is_draw := py_bool (PyRow.is_draw row);
        GameStateOut.moves := m;
        GameStateOut.created_at := PyRow.created_at row;
        GameStateOut.updated_at := PyRow.updated_at row |}, w).
Proof.
  intros [Hin Hmax] R W I.
  rewrite (get_latest_of_row int_of_str w r (latest_is_max _ _ Hin Hmax)).
  rewrite R, (decode_ok _ W), I. reflexivity.
Qed.

(** X5: [get_latest_game_state] only reads: whatever it returns or
    raises, the store, its id counter and the clock are as before. *)
Theorem fetch_is_read_only (int_of_str : str -> Z + string) (w : World) :
  snd (get_latest_game_state int_of_str w) = w.
Proof.
  destruct (order_by_id_desc_limit_1 (ttt_games w)) as [r|] eqn:E.
  - rewrite (get_latest_of_row int_of_str w r E).
    destruct (read_row r) as [row|]; [|reflexivity].
    destruct (_decode_board (PyRow.board row)); [|reflexivity].
    destruct (py_int int_of_str (PyRow.moves row)); reflexivity.
  - apply latest_none in E. rewrite (get_latest_of_empty int_of_str w E).
    reflexivity.
Qed.

(** X6: when the row with the largest id reads without error, has a
    well-formed board, a [moves] that [int] turns into an integer within
    0..9, and a next player and winner within their constraints,
    [get_latest_game_state] returns that row: same id, next player,
    winner and timestamps, the moves [int] gave (the stored integer when an
    integer is stored), the draw flag as [bool] reads it (for a stored
    integer, true exactly when it is not 0), and a board that encodes back
    to the stored string. *)
Theorem fetch_returns_latest_row (int_of_str : str -> Z + string) (w : World)
    (r : Row.t) (row : PyRow.t) (m : Z) :
  is_latest r (ttt_games w) ->
  read_row r = Ok row ->
  board_string_ok (PyRow.board row) = true ->
  py_int int_of_str (PyRow.moves row) = Ok m ->
  row_fields_ok row m = true ->
  exists out,
    get_latest_game_state int_of_str w = (Ok out, w) /\
    GameStateOut.id out = Row.id r /\
    (exists s, Row.board r = Utf8 s /\
               _encode_board (GameStateOut.board out) = Ok s) /\
    Row.next_player r = Utf8 (GameStateOut.next_player out) /\
    Row.winner r = option_map Utf8 (GameStateOut.winner out) /\
    GameStateOut.is_draw out = py_bool (PyRow.is_draw row) /\
    (forall z, Row.is_draw r = Integer z ->
               (GameStateOut.is_draw out = true <-> z <> 0)) /\
    GameStateOut.moves out = m /\
    (forall z, Row.moves r = Integer z -> GameStateOut.moves out = z) /\
    Row.created_at r = Utf8 (GameStateOut.created_at out) /\
    Row.updated_at r = Utf8 (GameStateOut.updated_at out).
Proof.
  intros Hl R W I F.
  unfold row_fields_ok in F.
  apply andb_true_iff in F as [F Fm]. apply andb_true_iff in F as [Fn Fw].
  destruct (read_row_ok _ _ R) as (Ei & Eb & En & Ew & Ed & Em & Ec & Eu).
  eexists. split.
  - rewrite (get_latest_of_good_board int_of_str w r row m Hl R W I).
    rewrite GameStateOut_new_ok; [reflexivity|].
    unfold GameStateOut_errors. apply errors_nil. cbn.
    repeat split; auto. apply decoded_cells_ok, W.
  - cbn. split; [exact Ei|]. split.
    { exists (PyRow.board row). split; [exact Eb|].
      unfold board_string_ok in W. apply andb_true_iff in W as [L C].
      apply len_eqb_9 in L.
      rewrite encode_ok by (rewrite length_map; exact L).
      rewrite (encode_decode_chars _ C). reflexivity. }
    split; [exact En|]. split; [exact Ew|]. split; [reflexivity|].
    split.
    { intros z Ez. rewrite Ez in Ed. cbn in Ed. injection Ed as <-. cbn.
      rewrite negb_true_iff, Z.eqb_neq. tauto. }
    split; [reflexivity|]. split.
    { intros z Ez. rewrite Ez in Em. cbn in Em. injection Em as Em.
      rewrite <- Em in I. cbn in I. congruence. }
    split; assumption.
Qed.

Lemma fetch_returns_latest_row_witness :
  exists out,
    get_latest_game_state no_int
      (store_with [row_of 7 (py "X...O....") example_payload (py (example_clock 1));
                   row_of 3 (py ".........") example_payload (py (example_clock 0))])
    = (Ok out,
       store_with [row_of 7 (py "X...O....") example_payload (py (example_clock 1));
                   row_of 3 (py ".........") example_payload (py (example_clock 0))]) /\
    GameStateOut.id out = 7 /\
    GameStateOut.moves out = 2.
Proof.
  destruct (fetch_returns_latest_row no_int
              (store_with
                 [row_of 7 (py "X...O....") example_payload (py (example_clock 1));
                  row_of 3 (py ".........") example_payload (py (example_clock 0))])
              (row_of 7 (py "X...O....") example_payload (py (example_clock 1)))
              (pyrow_of 7 (py "X...O....") example_payload (py (example_clock 1)))
              2)
    as (out & G & I & _ & _ & _ & _ & _ & M & _).
  - split; [left; reflexivity|].
    intros r' [<- | [<- | []]]; [left; reflexivity | right; cbn; lia].
  - apply read_row_of.
  - reflexivity.
  - reflexivity.
  - reflexivity.
  - exists out. split; [exact G|]. split; [exact I | exact M].
Defined.

(** X7: only the board column is guarded.  When the row with the largest
    id reads without error, has a well-formed board and a [moves] that
    [int] turns into an integer, but that integer is outside 0..9 or the
    next player or winner is outside its constraint,
    [get_latest_game_state] raises the validation error of the
    constructor, not one of its own HTTP exceptions, and the store is
    untouched. *)
Theorem fetch_bad_column_is_unhandled (int_of_str : str -> Z + string)
    (w : World) (r : Row.t) (row : PyRow.t) (m : Z) :
  is_latest r (ttt_games w) ->
  read_row r = Ok row ->
  board_string_ok (PyRow.board row) = true ->
  py_int int_of_str (PyRow.moves row) = Ok m ->
  row_fields_ok row m = false ->
  exists loc,
    loc <> [] /\
    get_latest_game_state int_of_str w = (Raise (ValidationError loc), w).
Proof.
  intros Hl R W I F.
  rewrite (get_latest_of_good_board int_of_str w r row m Hl R W I).
  match goal with |- context [GameStateOut_new ?o] =>
    destruct (GameStateOut_new_cases o) as [[E _] | [E G]] end.
  - exfalso. revert E. unfold GameStateOut_errors. cbn.
    apply errors_not_nil. exact F.
  - rewrite G. eexists. split; [exact E | reflexivity].
Qed.

Lemma fetch_bad_column_is_unhandled_witness :
  get_latest_game_state no_int
    (store_with
       [{| Row.id := 1; Row.board := Utf8 (py "X...O....");
           Row.next_player := Utf8 (py "O"); Row.winner := None;
           Row.is_draw := Integer 0; Row.moves := Integer 12;
           Row.created_at := Utf8 (py (example_clock 0));
           Row.updated_at := Utf8 (py (example_clock 0)) |}])
  = (Raise (ValidationError ["moves"]),
     store_with
       [{| Row.id := 1; Row.board := Utf8 (py "X...O....");
           Row.next_player := Utf8 (py "O"); Row.winner := None;
           Row.is_draw := Integer 0; Row.moves := Integer 12;
           Row.created_at := Utf8 (py (example_clock 0));
           Row.updated_at := Utf8 (py (example_clock 0)) |}]).
Proof.
  destruct (fetch_bad_column_is_unhandled no_int
    (store_with
       [{| Row.id := 1; Row.board := Utf8 (py "X...O....");
           Row.next_player := Utf8 (py "O"); Row.winner := None;
           Row.is_draw := Integer 0; Row.moves := Integer 12;
           Row.created_at := Utf8 (py (example_clock 0));
           Row.updated_at := Utf8 (py (example_clock 0)) |}])
    {| Row.id := 1; Row.board := Utf8 (py "X...O....");
       Row.next_player := Utf8 (py "O"); Row.winner := None;
       Row.is_draw := Integer 0; Row.moves := Integer 12;
       Row.created_at := Utf8 (py (example_clock 0));
       Row.updated_at := Utf8 (py (example_clock 0)) |}
    {| PyRow.id := 1; PyRow.board := py "X...O....";
       PyRow.next_player := py "O"; PyRow.winner := None;
       PyRow.is_draw := PyInt 0; PyRow.moves := PyInt 12;
       PyRow.created_at := py (example_clock 0);
       PyRow.updated_at := py (example_clock 0) |}
    12) as (loc & _ & G).
  - split; [left; reflexivity|]. intros r' [<- | []]. left; reflexivity.
  - reflexivity.
  - reflexivity.
  - reflexivity.
  - reflexivity.
  - rewrite G. vm_compute in G. injection G as <-. reflexivity.
Defined.

(** X8: a request to [POST /api/games] returns a record exactly when the
    body passes the field constraints and has nine cells; every request
    that fails, at validation or at the length check, leaves the store as
    it was. *)
Theorem post_succeeds_iff_valid (body : GameStateIn.t) (w : World) :
  ((exists out, fst (POST_api_games body w) = Ok out) <->
   valid_payload body = true) /\
  (valid_payload body = false -> snd (POST_api_games body w) = w).
Proof.
  unfold POST_api_games.
  destruct (GameStateIn_errors body) as [|f loc] eqn:E.
  - destruct (valid_payload body) eqn:V.
    + rewrite (save_ok _ w V). split; [|discriminate].
      split; [reflexivity | intros _; cbn; eauto].
    + assert (L : List.length (GameStateIn.board body) <> 9%nat).
      { intros L. assert (valid_payload body = true)
          by (apply valid_payload_spec; auto). congruence. }
      rewrite (save_rejects_length _ _ L). cbn.
      split; [|reflexivity]. split; [intros [o H]; discriminate | discriminate].
  - assert (V : valid_payload body = false).
    { unfold valid_payload. rewrite E. apply andb_false_r. }
    rewrite V. cbn. split; [|reflexivity].
    split; [intros [o H]; discriminate | discriminate].
Qed.

Lemma post_succeeds_iff_valid_witness :
  (exists out, fst (POST_api_games example_payload (empty_store example_clock))
               = Ok out) /\
  snd (POST_api_games
         {| GameStateIn.board := GameStateIn.board example_payload;
            GameStateIn.next_player := py "o"; GameStateIn.winner := None;
            GameStateIn.is_draw := false; GameStateIn.moves := 2 |}
         (empty_store example_clock)) = empty_store example_clock.
Proof.
  split.
  - apply (proj1 (post_succeeds_iff_valid _ _)). reflexivity.
  - apply (proj2 (post_succeeds_iff_valid _ _)). reflexivity.
Defined.

(** X9: [save_game_state] looks at the length of the board, not at its
    cells.  Called with nine cells and a next player, winner and moves
    within their constraints it returns a record even when cells hold
    strings other than "X" and "O": the returned board is valid, keeps the
    "X" and "O" cells and has null in place of every other cell. *)
Theorem save_normalises_cells (p : GameStateIn.t) (w : World) :
  List.length (GameStateIn.board p) = 9%nat ->
  outcome_fields_ok p = true ->
  exists out,
    fst (save_game_state p w) = Ok out /\
    valid_board (GameStateOut.board out) = true /\
    forall i v, nth_error (GameStateIn.board p) i = Some v ->
      nth_error (GameStateOut.board out) i =
      Some (if py_in v [py "X"; py "O"] then v else None).
Proof.
  intros L F. pose proof (fields_ok_bindable _ F) as B.
  unfold outcome_fields_ok in F.
  apply andb_true_iff in F as [F Fm]. apply andb_true_iff in F as [Fn Fw].
  rewrite (save_result _ w L B).
  rewrite GameStateOut_new_ok.
  - eexists. split; [reflexivity|]. cbn [GameStateOut.board]. split.
    + unfold valid_board. apply andb_true_iff. split.
      * apply len_eqb_9. rewrite !length_map. exact L.
      * apply normalised_cells_ok.
    + intros i v Hv. rewrite !nth_error_map, Hv. cbn [option_map].
      rewrite char_cell_of_cell. reflexivity.
  - unfold GameStateOut_errors. apply errors_nil. cbn.
    repeat split; auto. apply normalised_cells_ok.
Qed.

Lemma save_normalises_cells_witness :
  exists out,
    fst (save_game_state
           {| GameStateIn.board := [Some (py "X"); Some (py "Z"); None; None;
                                    Some (py "O"); Some (py "x"); None; None;
                                    Some (py "XX")];
              GameStateIn.next_player := py "O"; GameStateIn.winner := None;
              GameStateIn.is_draw := false; GameStateIn.moves := 2 |}
           (empty_store example_clock)) = Ok out /\
    GameStateOut.board out = GameStateIn.board example_payload.
Proof.
  destruct (save_normalises_cells
              {| GameStateIn.board := [Some (py "X"); Some (py "Z"); None; None;
                                       Some (py "O"); Some (py "x"); None; None;
                                       Some (py "XX")];
                 GameStateIn.next_player := py "O"; GameStateIn.winner := None;
                 GameStateIn.is_draw := false; GameStateIn.moves := 2 |}
              (empty_store example_clock) eq_refl eq_refl) as (out & S & _).
  exists out. split; [exact S|].
  vm_compute in S. injection S as <-. reflexivity.
Defined.

(** X10: the row is committed before the response is built.  Called with
    nine cells and fields the driver can bind (no lone surrogate in the
    next player or winner, moves within 64 bits) but a next player, winner
    or moves outside the constraints of [GameStateOut], [save_game_state]
    raises the validation error of the constructor after the insert: the
    table has gained the row. *)
Theorem save_commits_before_validating (p : GameStateIn.t) (w : World) :
  List.length (GameStateIn.board p) = 9%nat ->
  bindable p = true ->
  outcome_fields_ok p = false ->
  exists loc encoded,
    loc <> [] /\
    fst (save_game_state p w) = Raise (ValidationError loc) /\
    _encode_board (GameStateIn.board p) = Ok encoded /\
    ttt_games (snd (save_game_state p w)) =
      ttt_games w ++ [row_of (next_id w) encoded p (py (clock w (ticks w)))].
Proof.
  intros L B F.
  rewrite (save_result _ w L B), (save_appends _ w L), B, (encode_ok _ L).
  match goal with |- context [GameStateOut_new ?o] =>
    destruct (GameStateOut_new_cases o) as [[E _] | [E R]] end.
  - exfalso. revert E. unfold GameStateOut_errors. cbn.
    apply errors_not_nil. exact F.
  - rewrite R. do 2 eexists.
    split; [exact E|]. split; [reflexivity|]. split; reflexivity.
Qed.

Lemma save_commits_before_validating_witness :
  exists loc,
    fst (save_game_state
           {| GameStateIn.board := GameStateIn.board example_payload;
              GameStateIn.next_player := py "O"; GameStateIn.winner := None;
              GameStateIn.is_draw := false; GameStateIn.moves := 12 |}
           (empty_store example_clock)) = Raise (ValidationError loc) /\
    List.length
      (ttt_games
         (snd (save_game_state
                 {| GameStateIn.board := GameStateIn.board example_payload;
                    GameStateIn.next_player := py "O"; GameStateIn.winner := None;
                    GameStateIn.is_draw := false; GameStateIn.moves := 12 |}
                 (empty_store example_clock)))) = 1%nat.
Proof.
  destruct (save_commits_before_validating
              {| GameStateIn.board := GameStateIn.board example_payload;
                 GameStateIn.next_player := py "O"; GameStateIn.winner := None;
                 GameStateIn.is_draw := false; GameStateIn.moves := 12 |}
              (empty_store example_clock) eq_refl eq_refl eq_refl)
    as (loc & encoded & _ & R & _ & T).
  exists loc. split; [exact R|]. rewrite T. reflexivity.
Defined.

(** ** Invariants of a sequence of saves *)

Lemma max_id_app (t : list Row.t) (r : Row.t) :
  max_id (t ++ [r]) = Z.max (max_id t) (Z.max (Row.id r) 0).
Proof.
  unfold max_id. induction t as [|x t IH]; cbn [app fold_right]; [lia|].
  rewrite IH. lia.
Qed.

Lemma save_keeps_dense_ids (p : GameStateIn.t) (n : nat) (w : World) :
  dense_ids n w ->
  dense_ids (if writes_row p then S n else n) (snd (save_game_state p w)).
Proof.
  intros (Hids & Hseq & Hmax). rewrite save_world. unfold writes_row.
  destruct (nine_cells p); [|repeat split; assumption].
  destruct (bindable p); cbn [andb]; [|repeat split; assumption].
  assert (Hn : next_id w = Z.of_nat (S n)) by (unfold next_id; lia).
  unfold dense_ids, world_after_save. cbn [ttt_games sqlite_sequence].
  rewrite Hn. repeat split.
  - rewrite map_app, Hids, seq_S, map_app. reflexivity.
  - rewrite max_id_app. cbn [row_of Row.id]. lia.
Qed.

Lemma save_all_keeps_dense_ids (ps : list GameStateIn.t) (n : nat) (w : World) :
  dense_ids n w ->
  dense_ids (n + List.length (filter writes_row ps)) (save_all ps w).
Proof.
  revert n w; induction ps as [|p ps IH]; intros n w H; cbn [save_all filter].
  - cbn. rewrite Nat.add_0_r. exact H.
  - apply (save_keeps_dense_ids p) in H.
    destruct (writes_row p); cbn [List.length].
    + apply IH in H. replace (n + S (List.length (filter writes_row ps)))%nat
        with (S n + List.length (filter writes_row ps))%nat by lia. exact H.
    + apply IH, H.
Qed.

Lemma save_all_ticks (ps : list GameStateIn.t) (w : World) :
  ticks (save_all ps w) = (ticks w + List.length (filter nine_cells ps))%nat.
Proof.
  revert w; induction ps as [|p ps IH]; intros w; cbn [save_all filter].
  - cbn. lia.
  - rewrite IH, save_world.
    destruct (nine_cells p); [|reflexivity].
    destruct (bindable p); cbn; lia.
Qed.

(** X11: in a store filled only by [save_game_state], starting from the
    empty table, the ids are 1, 2, ..., k in insertion order, where k
    counts the payloads that had nine cells and fields the driver could
    bind: a save turned down for its length, or whose INSERT raised, uses
    up no id.  k is also the value of the id counter; the clock was read
    once for every payload with nine cells. *)
Theorem ids_from_empty_store (ps : list GameStateIn.t) (clk : nat -> string) :
  let w := save_all ps (empty_store clk) in
  let k := List.length (filter writes_row ps) in
  map Row.id (ttt_games w) = map Z.of_nat (seq 1 k) /\
  sqlite_sequence w = Z.of_nat k /\
  ticks w = List.length (filter nine_cells ps).
Proof.
  intros w k.
  destruct (save_all_keeps_dense_ids ps 0 (empty_store clk))
    as (Hids & Hseq & _).
  - repeat split; cbn; lia.
  - split; [exact Hids|]. split; [exact Hseq|].
    unfold w. rewrite save_all_ticks. reflexivity.
Qed.

(** X12: both timestamps of a row are the same clock reading.  If every
    row of a store has [created_at] equal to [updated_at], the same holds
    after any sequence of saves. *)
Theorem timestamps_agree (ps : list GameStateIn.t) (w : World) :
  Forall (fun r => Row.created_at r = Row.updated_at r) (ttt_games w) ->
  Forall (fun r => Row.created_at r = Row.updated_at r)
         (ttt_games (save_all ps w)).
Proof.
  revert w; induction ps as [|p ps IH]; intros w H; cbn [save_all]; [exact H|].
  apply IH. rewrite save_world.
  destruct (nine_cells p); [|exact H].
  destruct (bindable p); [|exact H].
  unfold world_after_save. cbn [ttt_games].
  apply Forall_app. split; [exact H|]. repeat constructor.
Qed.

Lemma timestamps_agree_witness :
  Forall (fun r => Row.created_at r = Row.updated_at r)
         (ttt_games (save_all [example_payload; example_payload]
                              (empty_store example_clock))).
Proof. apply timestamps_agree. constructor. Defined.

(** X13: the table is append-only.  After any sequence of saves the former
    rows are still there, unchanged and in the same order, followed by one
    new row for each payload that had nine cells and fields the driver
    could bind. *)
Theorem saves_only_append (ps : list GameStateIn.t) (w : World) :
  exists new,
    ttt_games (save_all ps w) = ttt_games w ++ new /\
    List.length new = List.length (filter writes_row ps).
Proof.
  revert w; induction ps as [|p ps IH]; intros w; cbn [save_all filter].
  - exists []. rewrite app_nil_r. auto.
  - rewrite save_world. unfold writes_row at 1.
    destruct (nine_cells p); [|apply IH].
    destruct (bindable p); cbn [andb].
    + destruct (IH (world_after_save p (map cell_char (GameStateIn.board p)) w))
        as (new & E & N).
      unfold world_after_save in E at 2. cbn [ttt_games] in E.
      rewrite <- app_assoc in E. eexists. split; [exact E|].
      cbn [app List.length]. congruence.
    + destruct (IH (after_clock_read w)) as (new & E & N).
      exists new. split; assumption.
Qed.

(** X14: saves keep the ids unique.  If no two rows of a store share an
    id, no two rows do after any sequence of saves. *)
Theorem ids_stay_unique (ps : list GameStateIn.t) (w : World) :
  NoDup (map Row.id (ttt_games w)) ->
  NoDup (map Row.id (ttt_games (save_all ps w))).
Proof.
  revert w; induction ps as [|p ps IH]; intros w H; cbn [save_all]; [exact H|].
  apply IH. rewrite save_world.
  destruct (nine_cells p); [|exact H].
  destruct (bindable p); [|exact H].
  unfold world_after_save. cbn [ttt_games].
  rewrite map_app. cbn [map row_of Row.id].
  apply NoDup_app; [exact H | repeat constructor; intros [] |].
  intros i Hin [<- | []]. apply in_map_iff in Hin as (r & E & Hr).
  apply next_id_fresh in Hr. lia.
Qed.

Lemma ids_stay_unique_witness :
  NoDup (map Row.id
           (ttt_games
              (save_all [example_payload; example_payload]
                 (store_with
                    [row_of 7 (py "X...O....") example_payload
                            (py (example_clock 1));
                     row_of 3 (py ".........") example_payload
                            (py (example_clock 0))])))).
Proof.
  apply ids_stay_unique. cbn.
  constructor; [intros [H | []]; discriminate H|].
  constructor; [intros []|]. constructor.
Defined.

(** ** The allowed-origins setting *)

Lemma lstrip_blank (s : str) : lstrip s = [] <-> blank s = true.
Proof.
  unfold blank. induction s as [|c s IH]; cbn; [tauto|].
  destruct (isspace c); cbn; [exact IH | split; discriminate].
Qed.

Lemma lstrip_head (s : str) (c : char) (t : str) :
  lstrip s = c :: t -> isspace c = false.
Proof.
  induction s as [|x s IH]; cbn; [discriminate|].
  destruct (isspace x) eqn:E; [exact IH|].
  intros H. injection H as <- _. exact E.
Qed.

Lemma lstrip_fixed (c : char) (t : str) :
  isspace c = false -> lstrip (c :: t) = c :: t.
Proof. intros E. cbn. rewrite E. reflexivity. Qed.

Lemma lstrip_idem (s : str) : lstrip (lstrip s) = lstrip s.
Proof.
  destruct (lstrip s) as [|c t] eqn:E; [reflexivity|].
  apply lstrip_fixed, (lstrip_head _ _ _ E).
Qed.

Lemma lstrip_in (s : str) (c : char) : In c (lstrip s) -> In c s.
Proof.
  induction s as [|x s IH]; cbn; [tauto|].
  destruct (isspace x); cbn; auto.
Qed.

Lemma lstrip_snoc (l : str) (c : char) :
  isspace c = false -> lstrip (l ++ [c]) = lstrip l ++ [c].
Proof.
  intros E. induction l as [|x l IH]; cbn; [rewrite E; reflexivity|].
  destruct (isspace x); [exact IH | reflexivity].
Qed.

Lemma rstrip_idem (s : str) : rstrip (rstrip s) = rstrip s.
Proof. unfold rstrip. rewrite rev_involutive, lstrip_idem. reflexivity. Qed.

Lemma rstrip_in (s : str) (c : char) : In c (rstrip s) -> In c s.
Proof.
  unfold rstrip. intros H. apply in_rev in H. apply lstrip_in in H.
  apply in_rev. exact H.
Qed.

Lemma rstrip_cons (c : char) (t : str) :
  isspace c = false -> rstrip (c :: t) = c :: rstrip t.
Proof.
  intros E. unfold rstrip. cbn [rev].
  rewrite (lstrip_snoc _ _ E), rev_app_distr. reflexivity.
Qed.

Lemma strip_in (s : str) (c : char) : In c (strip s) -> In c s.
Proof. intros H. apply lstrip_in, rstrip_in, H. Qed.

Lemma strip_blank (s : str) : strip s = [] <-> blank s = true.
Proof.
  unfold strip. destruct (lstrip s) as [|c t] eqn:E.
  - cbn. rewrite <- lstrip_blank. tauto.
  - rewrite (rstrip_cons _ _ (lstrip_head _ _ _ E)).
    split; [discriminate|]. intros B. apply lstrip_blank in B. congruence.
Qed.

Lemma strip_head (s : str) (c : char) (t : str) :
  strip s = c :: t -> isspace c = false.
Proof.
  unfold strip. destruct (lstrip s) as [|x u] eqn:E; [discriminate|].
  pose proof (lstrip_head _ _ _ E) as Hx.
  rewrite (rstrip_cons _ _ Hx). intros H. injection H as <- _. exact Hx.
Qed.

Lemma strip_last (s : str) (c : char) (t : str) :
  rev (strip s) = c :: t -> isspace c = false.
Proof.
  unfold strip, rstrip. rewrite rev_involutive. apply lstrip_head.
Qed.

Lemma strip_idem (s : str) : strip (strip s) = strip s.
Proof.
  unfold strip at 1.
  replace (lstrip (strip s)) with (strip s).
  - unfold strip. apply rstrip_idem.
  - destruct (strip s) as [|c t] eqn:E; [reflexivity|].
    symmetry. apply lstrip_fixed, (strip_head _ _ _ E).
Qed.

Lemma split_not_nil (sep : char) (s : str) : str_split sep s <> [].
Proof.
  destruct s as [|c s]; cbn; [discriminate|].
  destruct (N.eqb c sep); [discriminate|].
  destruct (str_split sep s); discriminate.
Qed.

Lemma split_pieces_in (sep : char) (s p : str) (c : char) :
  In p (str_split sep s) -> In c p -> In c s /\ c <> sep.
Proof.
  revert p; induction s as [|x s IH]; intros p; cbn.
  - intros [<- | []] [].
  - destruct (N.eqb x sep) eqn:E.
    + intros [<- | Hp] Hc; [destruct Hc|].
      destruct (IH p Hp Hc); auto.
    + apply N.eqb_neq in E.
      destruct (str_split sep s) as [|q qs] eqn:S.
      * intros [<- | []] [<- | []]. auto.
      * intros [<- | Hp] Hc.
        -- destruct Hc as [<- | Hc]; [auto|].
           destruct (IH q (or_introl eq_refl) Hc); auto.
        -- destruct (IH p (or_intror Hp) Hc); auto.
Qed.

Lemma split_covers (sep : char) (s : str) (c : char) :
  In c s -> c = sep \/ exists p, In p (str_split sep s) /\ In c p.
Proof.
  induction s as [|x s IH]; cbn; [tauto|].
  intros Hc. destruct (N.eqb x sep) eqn:E.
  - apply N.eqb_eq in E. subst x.
    destruct Hc as [<- | Hc]; [auto|].
    destruct (IH Hc) as [-> | (p & Hp & Hcp)]; [auto|].
    right. exists p. cbn. auto.
  - destruct (str_split sep s) as [|q qs] eqn:S.
    + destruct Hc as [<- | Hc]; [right; exists [x]; cbn; auto|].
      destruct (IH Hc) as [-> | (p & [] & _)]. auto.
    + destruct Hc as [<- | Hc]; [right; exists (x :: q); cbn; auto|].
      destruct (IH Hc) as [-> | (p & [<- | Hp] & Hcp)]; [auto | |].
      * right. exists (x :: q). cbn. auto.
      * right. exists p. cbn. auto.
Qed.

Lemma filter_nil_iff {A} (f : A -> bool) (l : list A) :
  filter f l = [] <-> forall x, In x l -> f x = false.
Proof.
  induction l as [|a l IH]; cbn; [tauto|].
  destruct (f a) eqn:E.
  - split; [discriminate|]. intros H. specialize (H a (or_introl eq_refl)).
    congruence.
  - rewrite IH. split.
    + intros H x [<- | Hx]; auto.
    + intros H x Hx. apply H. auto.
Qed.

Lemma truthy_false (s : str) : truthy s = false <-> s = [].
Proof. destruct s; cbn; split; congruence. Qed.

Lemma wildcard_chars (raw : str) :
  str_eqb (strip raw) (py "*") = true -> In 42%N raw.
Proof.
  intros E. apply str_eqb_eq in E. apply strip_in. rewrite E. left; reflexivity.
Qed.

Lemma entries_clean (raw o : str) :
  In o (allowed_origins raw) ->
  o <> [] /\
  ~ In comma o /\
  (forall c t, o = c :: t -> isspace c = false) /\
  (forall c t, rev o = c :: t -> isspace c = false).
Proof.
  unfold allowed_origins.
  destruct (str_eqb (strip raw) (py "*")).
  - intros [<- | []]. split; [discriminate|]. split.
    + intros [H | []]. discriminate H.
    + split; intros c t E; injection E as <- _; reflexivity.
  - intros H. apply in_map_iff in H as (p & <- & Hp).
    apply filter_In in Hp as [Hp T].
    split; [intros E; rewrite E in T; discriminate|]. split.
    + intros Hc. apply strip_in in Hc.
      destruct (split_pieces_in _ _ _ _ Hp Hc) as [_ N]. congruence.
    + split; intros c t E;
        [apply (strip_head _ _ _ E) | apply (strip_last _ _ _ E)].
Qed.

(** X15: every entry of [allowed_origins] is usable as it stands: it is
    not empty, holds no comma, and neither starts nor ends with
    whitespace. *)
Theorem allowed_origins_entries_clean (raw o : str) :
  In o (allowed_origins raw) ->
  o <> [] /\
  ~ In comma o /\
  (forall c t, o = c :: t -> isspace c = false) /\
  (forall c t, rev o = c :: t -> isspace c = false).
Proof. apply entries_clean. Qed.

Lemma allowed_origins_entries_clean_witness :
  py "http://a.test" <> [] /\
  ~ In comma (py "http://a.test") /\
  (forall c t, py "http://a.test" = c :: t -> isspace c = false) /\
  (forall c t, rev (py "http://a.test") = c :: t -> isspace c = false).
Proof.
  apply (allowed_origins_entries_clean
           (py " http://a.test , ,http://b.test,")).
  left. reflexivity.
Defined.

(** X16: [allowed_origins] is the empty list, so that no origin is
    allowed, exactly when the raw value holds nothing but whitespace and
    commas; the empty string is one such value. *)
Theorem allowed_origins_empty_iff (raw : str) :
  allowed_origins raw = [] <->
  forall c, In c raw -> isspace c = true \/ c = comma.
Proof.
  unfold allowed_origins. split.
  - destruct (str_eqb (strip raw) (py "*")); [discriminate|].
    intros E c Hc. apply map_eq_nil in E.
    destruct (split_covers comma raw c Hc) as [-> | (p & Hp & Hcp)]; [auto|].
    left. pose proof (proj1 (filter_nil_iff _ _) E p Hp) as T. cbn beta in T.
    apply truthy_false, strip_blank in T.
    unfold blank in T. rewrite forallb_forall in T. auto.
  - intros H. destruct (str_eqb (strip raw) (py "*")) eqn:W.
    + apply wildcard_chars in W. destruct (H _ W) as [S | C]; discriminate.
    + replace (filter _ _) with (@nil str); [reflexivity|].
      symmetry. apply filter_nil_iff. intros p Hp.
      apply truthy_false, strip_blank. unfold blank.
      apply forallb_forall. intros c Hc.
      destruct (split_pieces_in _ _ _ _ Hp Hc) as [Hin N].
      destruct (H c Hin); [assumption | contradiction].
Qed.

Lemma allowed_origins_empty_iff_witness :
  allowed_origins [] = [] /\ allowed_origins (py " , ,, ") = [].
Proof.
  split.
  - apply (proj2 (allowed_origins_empty_iff [])). intros c [].
  - apply (proj2 (allowed_origins_empty_iff (py " , ,, "))).
    intros c Hc. cbn in Hc.
    repeat (destruct Hc as [<- | Hc]; [(left; reflexivity) || (right; reflexivity)|]).
    destruct Hc.
Defined.

Lemma entries_tidy (raw o : str) :
  In o (allowed_origins raw) -> tidy o /\ ~ In comma o.
Proof.
  intros H. destruct (entries_clean raw o H) as (A & B & C & D).
  unfold tidy. auto.
Qed.

Lemma tidy_strip (o : str) : tidy o -> strip o = o.
Proof.
  intros (_ & Hh & Hl). destruct o as [|c t]; [reflexivity|].
  unfold strip. rewrite (lstrip_fixed c t (Hh c t eq_refl)).
  unfold rstrip. destruct (rev (c :: t)) as [|d u] eqn:E.
  - apply (f_equal (@List.length char)) in E. rewrite length_rev in E.
    discriminate E.
  - rewrite (lstrip_fixed d u (Hl d u eq_refl)), <- E.
    apply rev_involutive.
Qed.

Lemma tidy_app (a m b : str) : tidy a -> tidy b -> tidy (a ++ m ++ b).
Proof.
  intros (Na & Ha & _) (Nb & _ & Lb). repeat split.
  - destruct a; [congruence | discriminate].
  - destruct a as [|x a']; [congruence|]. intros c t E.
    injection E as <- _. apply (Ha x a' eq_refl).
  - rewrite !rev_app_distr, <- app_assoc.
    destruct (rev b) as [|d u] eqn:E.
    + apply (f_equal (@List.length char)) in E. rewrite length_rev in E.
      destruct b; [congruence | discriminate E].
    + intros c t E'. injection E' as <- _. apply (Lb d u eq_refl).
Qed.

Lemma split_no_sep (sep : char) (p : str) :
  ~ In sep p -> str_split sep p = [p].
Proof.
  induction p as [|x p IH]; cbn; [reflexivity|].
  intros H. destruct (N.eqb x sep) eqn:E.
  - apply N.eqb_eq in E. tauto.
  - rewrite IH by tauto. reflexivity.
Qed.

Lemma split_app_sep (sep : char) (p s : str) :
  ~ In sep p -> str_split sep (p ++ sep :: s) = p :: str_split sep s.
Proof.
  induction p as [|x p IH]; cbn [app str_split].
  - rewrite N.eqb_refl. reflexivity.
  - intros H. cbn in H. destruct (N.eqb x sep) eqn:E.
    + apply N.eqb_eq in E. tauto.
    + rewrite IH by tauto. reflexivity.
Qed.

Lemma join_cons (sep p q : str) (rest : list str) :
  str_join sep (p :: q :: rest) = p ++ sep ++ str_join sep (q :: rest).
Proof. reflexivity. Qed.

Lemma split_join (sep : char) (l : list str) :
  l <> [] -> Forall (fun o => ~ In sep o) l ->
  str_split sep (str_join [sep] l) = l.
Proof.
  induction l as [|p l IH]; [congruence|]. intros _ H.
  inversion H as [|? ? Hp Hl]; subst.
  destruct l as [|q rest]; [apply split_no_sep, Hp|].
  rewrite join_cons. cbn [app]. rewrite (split_app_sep _ _ _ Hp).
  rewrite IH; [reflexivity | discriminate | exact Hl].
Qed.

Lemma join_tidy (sep : str) (l : list str) :
  l <> [] -> Forall tidy l -> tidy (str_join sep l).
Proof.
  induction l as [|p l IH]; [congruence|]. intros _ H.
  inversion H as [|? ? Hp Hl]; subst.
  destruct l as [|q rest]; [exact Hp|].
  rewrite join_cons. apply tidy_app; [exact Hp|].
  apply IH; [discriminate | exact Hl].
Qed.

Lemma keep_tidy (l : list str) :
  Forall tidy l ->
  map strip (filter (fun o => truthy (strip o)) l) = l.
Proof.
  induction 1 as [|o l Ho _ IH]; cbn; [reflexivity|].
  rewrite (tidy_strip _ Ho). destruct o as [|c t].
  - destruct Ho as [N _]. congruence.
  - cbn [truthy map]. rewrite (tidy_strip _ Ho), IH. reflexivity.
Qed.

(** X17: the setting survives being written back.  Joining the entries of
    [allowed_origins] with commas and reading the result again gives the
    same entries. *)
Theorem allowed_origins_rejoin (raw : str) :
  allowed_origins (str_join [comma] (allowed_origins raw)) = allowed_origins raw.
Proof.
  set (l := allowed_origins raw).
  assert (T : Forall tidy l)
    by (apply Forall_forall; intros o Ho; apply (entries_tidy raw o Ho)).
  assert (C : Forall (fun o => ~ In comma o) l)
    by (apply Forall_forall; intros o Ho; apply (entries_tidy raw o Ho)).
  destruct l as [|p rest] eqn:El; [reflexivity|].
  assert (Nl : p :: rest <> []) by discriminate.
  unfold allowed_origins at 1.
  rewrite (tidy_strip _ (join_tidy [comma] _ Nl T)).
  destruct (str_eqb (str_join [comma] (p :: rest)) (py "*")) eqn:W.
  - apply str_eqb_eq in W. destruct rest as [|q rest'].
    + cbn [str_join] in W. rewrite W. reflexivity.
    + rewrite join_cons in W.
      assert (Hin : In comma (py "*"))
        by (rewrite <- W; apply in_or_app; right; left; reflexivity).
      destruct Hin as [H | []]. discriminate H.
  - rewrite (split_join comma _ Nl C). apply keep_tidy, T.
Qed.

Lemma blank_no_comma (a : str) : blank a = true -> ~ In comma a.
Proof.
  unfold blank. rewrite forallb_forall. intros B H.
  specialize (B _ H). discriminate B.
Qed.

Lemma blank_rev (a : str) : blank a = true -> blank (rev a) = true.
Proof.
  unfold blank. rewrite !forallb_forall. intros B c Hc.
  apply B, in_rev, Hc.
Qed.

Lemma lstrip_app_blank (a t : str) :
  blank a = true -> lstrip (a ++ t) = lstrip t.
Proof.
  unfold blank. induction a as [|x a IH]; cbn; [reflexivity|].
  intros B. apply andb_true_iff in B as [Bx Ba]. rewrite Bx. auto.
Qed.

Lemma rstrip_app_blank (t b : str) :
  blank b = true -> rstrip (t ++ b) = rstrip t.
Proof.
  intros B. unfold rstrip. rewrite rev_app_distr.
  rewrite (lstrip_app_blank _ _ (blank_rev _ B)). reflexivity.
Qed.

Lemma lstrip_app_r (s b : str) :
  lstrip (s ++ b) = if blank s then lstrip b else lstrip s ++ b.
Proof.
  unfold blank. induction s as [|x s IH]; cbn; [reflexivity|].
  destruct (isspace x); cbn; [exact IH | reflexivity].
Qed.

(** Whitespace around a string does not change what [strip] returns. *)
Lemma strip_padding (a s b : str) :
  blank a = true -> blank b = true -> strip (a ++ s ++ b) = strip s.
Proof.
  intros Ba Bb. unfold strip.
  rewrite (lstrip_app_blank _ _ Ba), lstrip_app_r.
  destruct (blank s) eqn:Bs.
  - rewrite (proj2 (lstrip_blank b) Bb), (proj2 (lstrip_blank s) Bs).
    reflexivity.
  - apply rstrip_app_blank, Bb.
Qed.

Lemma split_prefix (sep : char) (a s : str) :
  ~ In sep a ->
  str_split sep (a ++ s) =
  match str_split sep s with
  | h :: t => (a ++ h) :: t
  | [] => [a]
  end.
Proof.
  induction a as [|x a IH]; cbn [app].
  - intros _. pose proof (split_not_nil sep s) as N.
    destruct (str_split sep s); [congruence | reflexivity].
  - intros H. cbn in H. cbn [str_split].
    destruct (N.eqb x sep) eqn:E; [apply N.eqb_eq in E; tauto|].
    rewrite IH by tauto. destruct (str_split sep s); reflexivity.
Qed.

Lemma split_suffix (sep : char) (s b : str) :
  ~ In sep b ->
  str_split sep (s ++ b) = app_last b (str_split sep s).
Proof.
  intros H. induction s as [|x s IH]; cbn [app str_split].
  - apply split_no_sep, H.
  - rewrite IH. pose proof (split_not_nil sep s) as N.
    destruct (N.eqb x sep).
    + destruct (str_split sep s) as [|q qs]; [congruence | reflexivity].
    + destruct (str_split sep s) as [|q [|q2 qs]]; [congruence | |];
        reflexivity.
Qed.

Lemma strips_app_last (b : str) (ps : list str) :
  blank b = true -> map strip (app_last b ps) = map strip ps.
Proof.
  intros B. induction ps as [|p ps IH]; [reflexivity|].
  destruct ps as [|q qs].
  - cbn. f_equal. rewrite <- (strip_padding [] p b eq_refl B). reflexivity.
  - change (app_last b (p :: q :: qs)) with (p :: app_last b (q :: qs)).
    cbn [map]. rewrite IH. reflexivity.
Qed.

(** The entries depend on the stripped pieces only. *)
Lemma entries_of_strips (ps : list str) :
  map strip (filter (fun o => truthy (strip o)) ps)
  = filter truthy (map strip ps).
Proof.
  induction ps as [|p ps IH]; cbn; [reflexivity|].
  destruct (truthy (strip p)); cbn; rewrite IH; reflexivity.
Qed.

(** X18: whitespace before and after the raw value does not matter:
    [allowed_origins] gives the same entries with or without it. *)
Theorem allowed_origins_ignores_padding (a raw b : str) :
  blank a = true -> blank b = true ->
  allowed_origins (a ++ raw ++ b) = allowed_origins raw.
Proof.
  intros Ba Bb. unfold allowed_origins.
  rewrite (strip_padding _ _ _ Ba Bb).
  destruct (str_eqb (strip raw) (py "*")); [reflexivity|].
  rewrite !entries_of_strips. f_equal.
  rewrite (split_prefix _ _ _ (blank_no_comma _ Ba)).
  rewrite (split_suffix _ _ _ (blank_no_comma _ Bb)).
  rewrite <- (strips_app_last b (str_split comma raw) Bb).
  destruct (app_last b (str_split comma raw)) as [|h t] eqn:E.
  - exfalso. pose proof (split_not_nil comma raw) as N.
    destruct (str_split comma raw) as [|q [|q2 qs]]; cbn in E; congruence.
  - cbn [map]. f_equal.
    rewrite <- (app_nil_r (a ++ h)), <- app_assoc.
    apply strip_padding; [exact Ba | reflexivity].
Qed.

Lemma allowed_origins_ignores_padding_witness :
  allowed_origins (py "  " ++ py "http://a.test, http://b.test" ++ py " ")
  = [py "http://a.test"; py "http://b.test"].
Proof.
  rewrite (allowed_origins_ignores_padding (py "  ")
             (py "http://a.test, http://b.test") (py " ") eq_refl eq_refl).
  reflexivity.
Defined.

(** X19: the wildcard is the default.  When [ALLOWED_ORIGINS] is not set,
    or is set to ["*"] with any whitespace around it, [allowed_origins] is
    the one-entry list [["*"]]. *)
Theorem allowed_origins_wildcard (environ : Environ) :
  environ "ALLOWED_ORIGINS" = None \/
  (exists a b, blank a = true /\ blank b = true /\
               environ "ALLOWED_ORIGINS" = Some (a ++ py "*" ++ b)) ->
  allowed_origins (allowed_origins_raw environ) = [py "*"].
Proof.
  unfold allowed_origins_raw, getenv.
  intros [-> | (a & b & Ba & Bb & ->)]; [reflexivity|].
  unfold allowed_origins. rewrite (strip_padding _ _ _ Ba Bb). reflexivity.
Qed.

Lemma allowed_origins_wildcard_witness :
  allowed_origins (allowed_origins_raw (fun _ => None)) = [py "*"] /\
  allowed_origins
    (allowed_origins_raw
       (fun name => if String.eqb name "ALLOWED_ORIGINS"
                    then Some (py " " ++ py "*" ++ [10%N]) else None))
  = [py "*"].
Proof.
  split.
  - apply allowed_origins_wildcard. left. reflexivity.
  - apply allowed_origins_wildcard. right.
    exists (py " "), [10%N]. repeat split; reflexivity.
Defined.

(** X20: the HTTP exceptions of [get_latest_game_state].  It raises the
    404 exactly when the table is empty, an HTTP 500 exactly when the row
    the query returns reads without error and its board is malformed, and
    no HTTP exception with another status. *)
Theorem fetch_failures (int_of_str : str -> Z + string) (w : World) :
  (fst (get_latest_game_state int_of_str w)
   = Raise (HTTPException 404 "No saved game state") <-> ttt_games w = []) /\
  ((exists d, fst (get_latest_game_state int_of_str w)
              = Raise (HTTPException 500 d)) <->
   exists r row, order_by_id_desc_limit_1 (ttt_games w) = Some r /\
                 read_row r = Ok row /\
                 board_string_ok (PyRow.board row) = false) /\
  (forall c d, fst (get_latest_game_state int_of_str w)
               = Raise (HTTPException c d) ->
               c = 404 \/ c = 500).
Proof.
  destruct (order_by_id_desc_limit_1 (ttt_games w)) as [r|] eqn:E.
  - assert (N : ttt_games w <> [])
      by (intros N; apply latest_none in N; congruence).
    assert (Other : forall x : result GameStateOut.t,
              (forall c d, x <> Raise (HTTPException c d)) ->
              (forall row, read_row r = Ok row ->
                           board_string_ok (PyRow.board row) = true) ->
              (x = Raise (HTTPException 404 "No saved game state") <->
               ttt_games w = []) /\
              ((exists d, x = Raise (HTTPException 500 d)) <->
               exists r' row, Some r = Some r' /\ read_row r' = Ok row /\
                              board_string_ok (PyRow.board row) = false) /\
              (forall c d, x = Raise (HTTPException c d) ->
                           c = 404 \/ c = 500)).
    { intros x Hx Hb.
      split; [split; [intros H; exfalso; apply (Hx _ _ H) | contradiction]|].
      split; [split|].
      - intros [d H]. exfalso. apply (Hx _ _ H).
      - intros (r' & row & Hr & Hrow & Hw). injection Hr as <-.
        rewrite (Hb row Hrow) in Hw. discriminate.
      - intros c d H. exfalso. apply (Hx _ _ H). }
    rewrite (get_latest_of_row int_of_str w r E).
    destruct (read_row r) as [row|e] eqn:R.
    + destruct (board_string_ok (PyRow.board row)) eqn:W.
      * rewrite (decode_ok _ W).
        destruct (py_int int_of_str (PyRow.moves row)) as [m|e] eqn:I;
          cbn [fst]; apply Other.
        -- intros c d. apply GameStateOut_new_not_http.
        -- intros row' H. congruence.
        -- intros c d. destruct (py_int_raises _ _ _ I) as [[msg ->] | [msg ->]];
             discriminate.
        -- intros row' H. congruence.
      * destruct (decode_bad _ W) as [msg D]. rewrite D. cbn [fst].
        split; [split; [discriminate | contradiction]|].
        split; [split; [intros _; exists r, row; auto | intros _; eauto]|].
        intros c d H. injection H as <- _. auto.
    + cbn [fst]. apply Other.
      * intros c d. destruct (read_row_raises _ _ R) as [col ->]. discriminate.
      * intros row H. discriminate.
  - apply latest_none in E.
    rewrite (get_latest_of_empty int_of_str w E). cbn [fst].
    rewrite E. cbn [order_by_id_desc_limit_1].
    split; [split; auto|].
    split; [split; [intros [d H]; discriminate
                   | intros (r & row & Hr & _); discriminate]|].
    intros c d H. injection H as <- _. auto.
Qed.

(** X21: the ways [save_game_state] can fail.  It raises an HTTP exception
    exactly when the board does not have nine cells, and then the 400; it
    never raises the [ValueError] of either codec function, whatever the
    payload. *)
Theorem save_failures (p : GameStateIn.t) (w : World) :
  ((exists c d, fst (save_game_state p w) = Raise (HTTPException c d)) <->
   List.length (GameStateIn.board p) <> 9%nat) /\
  (forall c d, fst (save_game_state p w) = Raise (HTTPException c d) ->
               c = 400) /\
  (forall msg, fst (save_game_state p w) <> Raise (ValueError msg)).
Proof.
  destruct (Nat.eq_dec (List.length (GameStateIn.board p)) 9) as [L | L].
  - assert (Other : forall x : result GameStateOut.t,
              (forall c d, x <> Raise (HTTPException c d)) ->
              (forall msg, x <> Raise (ValueError msg)) ->
              ((exists c d, x = Raise (HTTPException c d)) <->
               List.length (GameStateIn.board p) <> 9%nat) /\
              (forall c d, x = Raise (HTTPException c d) -> c = 400) /\
              (forall msg, x <> Raise (ValueError msg))).
    { intros x Hh Hv.
      split; [split; [intros (c & d & H); exfalso; apply (Hh _ _ H)
                     | contradiction]|].
      split; [intros c d H; exfalso; apply (Hh _ _ H) | exact Hv]. }
    destruct (bindable p) eqn:B.
    + rewrite (save_result _ w L B). apply Other.
      * intros c d. apply GameStateOut_new_not_http.
      * intros msg. unfold GameStateOut_new.
        destruct (GameStateOut_errors _); discriminate.
    + destruct (save_unbindable _ w L B) as (e & S & He). rewrite S.
      cbn [fst]. apply Other; destruct He as [-> | ->]; discriminate.
  - rewrite (save_rejects_length _ _ L). cbn [fst].
    split; [split; [intros _; exact L | intros _; eauto]|].
    split; [intros c d H; injection H as <- _; reflexivity
           | intros m; discriminate].
Qed.

(** X22: a board that reads but is malformed is reported.  When the row
    with the largest id reads without error and its board is not nine
    characters long or has a character other than '.' (46), 'X' (88),
    'O' (79), [get_latest_game_state] raises the HTTP 500 "corrupt board
    data" exception carrying the decoder's message, whatever the other
    columns hold. *)
Theorem corrupt_latest_is_500 (int_of_str : str -> Z + string) (w : World)
    (r : Row.t) (row : PyRow.t) :
  is_latest r (ttt_games w) ->
  read_row r = Ok row ->
  List.length (PyRow.board row) <> 9%nat \/
  (exists c, In c (PyRow.board row) /\ c <> 46%N /\ c <> 88%N /\ c <> 79%N) ->
  exists msg,
    _decode_board (PyRow.board row) = Raise (ValueError msg) /\
    get_latest_game_state int_of_str w =
    (Raise (HTTPException 500 ("Corrupt board data: " ++ msg)%string), w).
Proof.
  intros [Hin Hmax] R Hbad.
  destruct (decode_bad _ (corrupt_not_ok _ Hbad)) as [msg E].
  exists msg. split; [exact E|].
  rewrite (get_latest_of_row int_of_str w r (latest_is_max _ _ Hin Hmax)).
  rewrite R, E. reflexivity.
Qed.

Lemma corrupt_latest_is_500_witness :
  get_latest_game_state no_int
    (store_with
       [row_of 1 (py "X...O....") example_payload (py (example_clock 0));
        row_of 2 (py "X..?O....") example_payload (py (example_clock 1))])
  = (Raise (HTTPException 500 "Corrupt board data: invalid board encoding"),
     store_with
       [row_of 1 (py "X...O....") example_payload (py (example_clock 0));
        row_of 2 (py "X..?O....") example_payload (py (example_clock 1))]).
Proof.
  destruct (corrupt_latest_is_500 no_int
              (store_with
                 [row_of 1 (py "X...O....") example_payload (py (example_clock 0));
                  row_of 2 (py "X..?O....") example_payload (py (example_clock 1))])
              (row_of 2 (py "X..?O....") example_payload (py (example_clock 1)))
              (pyrow_of 2 (py "X..?O....") example_payload (py (example_clock 1))))
    as [msg [D G]].
  - split; [right; left; reflexivity|].
    intros r' [<- | [<- | []]]; [right; cbn; lia | left; reflexivity].
  - reflexivity.
  - right. exists 63%N. cbn. repeat split; try tauto; discriminate.
  - vm_compute in D. injection D as <-. exact G.
Defined.

(** X23: text that is not UTF-8 is not handled.  When a text column of the
    row with the largest id, the board included, or a text stored in its
    [is_draw] or [moves] column, holds bytes that are not UTF-8,
    [get_latest_game_state] raises the driver's [OperationalError]: the
    row is read before the [try] around the decoder, so no HTTP exception
    is raised; the store is untouched. *)
Theorem undecodable_text_crashes_fetch (int_of_str : str -> Z + string)
    (w : World) (r : Row.t) :
  is_latest r (ttt_games w) ->
  Row.board r = NotUtf8 \/ Row.next_player r = NotUtf8 \/
  Row.winner r = Some NotUtf8 \/ Row.is_draw r = Text NotUtf8 \/
  Row.moves r = Text NotUtf8 \/ Row.created_at r = NotUtf8 \/
  Row.updated_at r = NotUtf8 ->
  exists column,
    get_latest_game_state int_of_str w = (Raise (OperationalError column), w).
Proof.
  intros [Hin Hmax] H.
  rewrite (get_latest_of_row int_of_str w r (latest_is_max _ _ Hin Hmax)).
  destruct (read_row r) as [row|e] eqn:R.
  - exfalso.
    destruct (read_row_ok _ _ R) as (_ & Eb & En & Ew & Ed & Em & Ec & Eu).
    destruct H as [H | [H | [H | [H | [H | [H | H]]]]]];
      try congruence.
    + rewrite H in Ew. destruct (PyRow.winner row); discriminate.
    + rewrite H in Ed. discriminate.
    + rewrite H in Em. discriminate.
  - destruct (read_row_raises _ _ R) as [column ->]. eauto.
Qed.

Lemma undecodable_text_crashes_fetch_witness :
  exists column,
    get_latest_game_state no_int
      (store_with
         [{| Row.id := 1; Row.board := NotUtf8;
             Row.next_player := Utf8 (py "O"); Row.winner := None;
             Row.is_draw := Integer 0; Row.moves := Integer 2;
             Row.created_at := Utf8 (py (example_clock 0));
             Row.updated_at := Utf8 (py (example_clock 0)) |}])
    = (Raise (OperationalError column),
       store_with
         [{| Row.id := 1; Row.board := NotUtf8;
             Row.next_player := Utf8 (py "O"); Row.winner := None;
             Row.is_draw := Integer 0; Row.moves := Integer 2;
             Row.created_at := Utf8 (py (example_clock 0));
             Row.updated_at := Utf8 (py (example_clock 0)) |}]).
Proof.
  apply (undecodable_text_crashes_fetch no_int
           (store_with
              [{| Row.id := 1; Row.board := NotUtf8;
                  Row.next_player := Utf8 (py "O"); Row.winner := None;
                  Row.is_draw := Integer 0; Row.moves := Integer 2;
                  Row.created_at := Utf8 (py (example_clock 0));
                  Row.updated_at := Utf8 (py (example_clock 0)) |}])
           {| Row.id := 1; Row.board := NotUtf8;
              Row.next_player := Utf8 (py "O"); Row.winner := None;
              Row.is_draw := Integer 0; Row.moves := Integer 2;
              Row.created_at := Utf8 (py (example_clock 0));
              Row.updated_at := Utf8 (py (example_clock 0)) |}).
  - split; [left; reflexivity|]. intros r' [<- | []]. left; reflexivity.
  - left. reflexivity.
Defined.

(** X24: a [moves] column [int] cannot convert is not handled.  When the
    row with the largest id reads without error and has a well-formed
    board, but [int] raises on its [moves] (a text that is no integer
    literal, an infinite real), [get_latest_game_state] raises that
    [ValueError] or [OverflowError] itself; a real is truncated towards
    zero before the range is checked. *)
Theorem fetch_bad_moves_crashes (int_of_str : str -> Z + string) (w : World)
    (r : Row.t) (row : PyRow.t) (e : exn) :
  is_latest r (ttt_games w) ->
  read_row r = Ok row ->
  board_string_ok (PyRow.board row) = true ->
  py_int int_of_str (PyRow.moves row) = Raise e ->
  get_latest_game_state int_of_str w = (Raise e, w) /\
  ((exists msg, e = ValueError msg) \/ (exists msg, e = OverflowError msg)).
Proof.
  intros [Hin Hmax] R W I.
  rewrite (get_latest_of_row int_of_str w r (latest_is_max _ _ Hin Hmax)).
  rewrite R, (decode_ok _ W), I.
  split; [reflexivity | apply (py_int_raises _ _ _ I)].
Qed.

Lemma fetch_bad_moves_crashes_witness :
  get_latest_game_state no_int
    (store_with
       [{| Row.id := 1; Row.board := Utf8 (py "X...O....");
           Row.next_player := Utf8 (py "O"); Row.winner := None;
           Row.is_draw := Integer 0; Row.moves := Text (Utf8 (py "two"));
           Row.created_at := Utf8 (py (example_clock 0));
           Row.updated_at := Utf8 (py (example_clock 0)) |}])
  = (Raise (ValueError "invalid literal for int() with base 10"),
     store_with
       [{| Row.id := 1; Row.board := Utf8 (py "X...O....");
           Row.next_player := Utf8 (py "O"); Row.winner := None;
           Row.is_draw := Integer 0; Row.moves := Text (Utf8 (py "two"));
           Row.created_at := Utf8 (py (example_clock 0));
           Row.updated_at := Utf8 (py (example_clock 0)) |}]).
Proof.
  apply (fetch_bad_moves_crashes no_int
           (store_with
              [{| Row.id := 1; Row.board := Utf8 (py "X...O....");
                  Row.next_player := Utf8 (py "O"); Row.winner := None;
                  Row.is_draw := Integer 0;
                  Row.moves := Text (Utf8 (py "two"));
                  Row.created_at := Utf8 (py (example_clock 0));
                  Row.updated_at := Utf8 (py (example_clock 0)) |}])
           {| Row.id := 1; Row.board := Utf8 (py "X...O....");
              Row.next_player := Utf8 (py "O"); Row.winner := None;
              Row.is_draw := Integer 0; Row.moves := Text (Utf8 (py "two"));
              Row.created_at := Utf8 (py (example_clock 0));
              Row.updated_at := Utf8 (py (example_clock 0)) |}
           {| PyRow.id := 1; PyRow.board := py "X...O....";
              PyRow.next_player := py "O"; PyRow.winner := None;
              PyRow.is_draw := PyInt 0; PyRow.moves := PyStr (py "two");
              PyRow.created_at := py (example_clock 0);
              PyRow.updated_at := py (example_clock 0) |}).
  - split; [left; reflexivity|]. intros r' [<- | []]. left; reflexivity.
  - reflexivity.
  - reflexivity.
  - reflexivity.
Defined.

(** X25: a save whose INSERT cannot be bound writes nothing.  Called with
    nine cells and a next player or winner holding a lone surrogate, or a
    moves outside 64 bits, [save_game_state] raises the driver's
    [UnicodeEncodeError] or [OverflowError]; the table and the id counter
    are as before, and only the clock has been read. *)
Theorem unbindable_save_writes_nothing (p : GameStateIn.t) (w : World) :
  List.length (GameStateIn.board p) = 9%nat ->
  bindable p = false ->
  exists e,
    fst (save_game_state p w) = Raise e /\
    (e = UnicodeEncodeError \/
     e = OverflowError "Python int too large to convert to SQLite INTEGER") /\
    ttt_games (snd (save_game_state p w)) = ttt_games w /\
    sqlite_sequence (snd (save_game_state p w)) = sqlite_sequence w /\
    ticks (snd (save_game_state p w)) = S (ticks w).
Proof.
  intros L B. destruct (save_unbindable p w L B) as (e & S & He).
  exists e. rewrite S. repeat split; auto.
Qed.

Lemma unbindable_save_writes_nothing_witness :
  fst (save_game_state
         {| GameStateIn.board := GameStateIn.board example_payload;
            GameStateIn.next_player := py "O"; GameStateIn.winner := None;
            GameStateIn.is_draw := false;
            GameStateIn.moves := 9223372036854775808 |}
         (empty_store example_clock))
  = Raise (OverflowError "Python int too large to convert to SQLite INTEGER") /\
  ttt_games
    (snd (save_game_state
            {| GameStateIn.board := GameStateIn.board example_payload;
               GameStateIn.next_player := py "O"; GameStateIn.winner := None;
               GameStateIn.is_draw := false;
               GameStateIn.moves := 9223372036854775808 |}
            (empty_store example_clock))) = [].
Proof.
  destruct (unbindable_save_writes_nothing
              {| GameStateIn.board := GameStateIn.board example_payload;
                 GameStateIn.next_player := py "O"; GameStateIn.winner := None;
                 GameStateIn.is_draw := false;
                 GameStateIn.moves := 9223372036854775808 |}
              (empty_store example_clock) eq_refl eq_refl)
    as (e & F & _ & T & _).
  split; [|exact T].
  rewrite F. vm_compute in F. injection F as <-. reflexivity.
Defined.

(** A [moves] column holding the real 2.5: [int] truncates it, and the
    record is returned with [moves] 2. *)
Example real_moves_example :
  exists out,
    fst (get_latest_game_state no_int
           (store_with
              [{| Row.id := 1; Row.board := Utf8 (py "X...O....");
                  Row.next_player := Utf8 (py "O"); Row.winner := None;
                  Row.is_draw := Integer 0;
                  Row.moves := Real (S754_finite false 5 (-1));
                  Row.created_at := Utf8 (py (example_clock 0));
                  Row.updated_at := Utf8 (py (example_clock 0)) |}]))
    = Ok out /\ GameStateOut.moves out = 2.
Proof. eexists. split; reflexivity. Qed.
